(** * Rolling z-score outlier detection: a shallow embedding

    The development follows the Python sources

      - [anomaly_detection/z_score.py]  ([process_z_score_outliers])
      - [energy_data/data.py]           ([get_historical_energy_data])

    Python floats are read in exact arithmetic: a finite float is a real
    number, and the three IEEE special values (plus and minus infinity,
    NaN) are kept as separate constructors because the validity check of
    the engine lets two of them through.  Exceptions are values of an error
    type; the asynchronous live stream is the finite list of items pulled
    from it so far. *)

From Stdlib Require Import Reals Lra Lia ZArith List Bool.
Import ListNotations.
Open Scope R_scope.

(** ** Exceptions and fallible computations *)

Inductive exn : Set :=
| ValueError
| ZeroDivisionError
| IndexError.

Inductive result (A : Type) : Type :=
| Ok (a : A)
| Raise (e : exn).

Arguments Ok {A} a.
Arguments Raise {A} e.

Definition bind {A B : Type} (r : result A) (k : A -> result B) : result B :=
  match r with
  | Ok a => k a
  | Raise e => Raise e
  end.

Notation "x <- r ;; k" := (bind r (fun x => k))
  (at level 61, r at next level, right associativity).
Notation "' p <- r ;; k" := (bind r (fun p => k))
  (at level 61, p pattern, r at next level, right associativity).

(** Comparisons of reals as booleans, as Python's [<] and [==] return. *)

Definition R_ltb (x y : R) : bool := if Rlt_dec x y then true else false.
Definition R_eqb (x y : R) : bool := if Req_dec_T x y then true else false.

(** [math.floor] and [math.ceil] of a finite float. *)

Definition floor (x : R) : Z := (up x - 1)%Z.
Definition ceil (x : R) : Z := (- floor (- x))%Z.

(** ** Python numbers *)

Module PyNum.

(** A float in exact arithmetic: a real, a signed infinity, or NaN. *)
Inductive num : Type :=
| Fin (x : R)
| Inf (negative : bool)
| NaN.

(** An [int] used in float arithmetic. *)
Definition of_int (n : Z) : num := Fin (IZR n).

Definition neg (a : num) : num :=
  match a with
  | Fin x => Fin (- x)
  | Inf s => Inf (negb s)
  | NaN => NaN
  end.

Definition add (a b : num) : num :=
  match a, b with
  | Fin x, Fin y => Fin (x + y)
  | Fin _, Inf s => Inf s
  | Inf s, Fin _ => Inf s
  | Inf s, Inf t => if Bool.eqb s t then Inf s else NaN
  | _, _ => NaN
  end.

Definition sub (a b : num) : num := add a (neg b).

Definition mul (a b : num) : num :=
  match a, b with
  | Fin x, Fin y => Fin (x * y)
  | Fin x, Inf s => if R_eqb x 0 then NaN else Inf (xorb s (R_ltb x 0))
  | Inf s, Fin x => if R_eqb x 0 then NaN else Inf (xorb s (R_ltb x 0))
  | Inf s, Inf t => Inf (xorb s t)
  | _, _ => NaN
  end.

(** [x ** 2]. *)
Definition pow2 (a : num) : num := mul a a.

(** [a / b]: a zero divisor raises, whatever the dividend. *)
Definition div (a b : num) : result num :=
  match b with
  | Fin y =>
      if R_eqb y 0 then Raise ZeroDivisionError
      else Ok match a with
              | Fin x => Fin (x / y)
              | Inf s => Inf (xorb s (R_ltb y 0))
              | NaN => NaN
              end
  | Inf _ => Ok match a with
                | Fin _ => Fin 0
                | _ => NaN
                end
  | NaN => Ok NaN
  end.

(** [math.sqrt]: a negative argument is a domain error. *)
Definition math_sqrt (a : num) : result num :=
  match a with
  | Fin x => if R_ltb x 0 then Raise ValueError else Ok (Fin (R_sqrt.sqrt x))
  | Inf false => Ok (Inf false)
  | Inf true => Raise ValueError
  | NaN => Ok NaN
  end.

Definition abs (a : num) : num :=
  match a with
  | Fin x => Fin (Rabs x)
  | Inf _ => Inf false
  | NaN => NaN
  end.

(** [a < b]; every comparison with NaN is false. *)
Definition ltb (a b : num) : bool :=
  match a, b with
  | Fin x, Fin y => R_ltb x y
  | Fin _, Inf t => negb t
  | Inf s, Fin _ => s
  | Inf s, Inf t => s && negb t
  | _, _ => false
  end.

(** [a > b]. *)
Definition gtb (a b : num) : bool := ltb b a.

(** [sum(l)] of a sequence of numbers. *)
Definition total (l : list num) : num := fold_left add l (Fin 0).

End PyNum.

Import PyNum.

(** ** Samples *)

(** The value of a sample as the engine receives it: an [int] (a [bool]
    is one), a [float], or an object of any other type ([None], a string,
    ...). *)
Inductive pyobj : Type :=
| PyInt (n : Z)
| PyFloat (x : num)
| PyOther.

(** A sample is [(timestamp, value)], a decision
    [(timestamp, value, is_outlier)]. *)
#[warnings="-notation-for-abbreviation"]
Notation timestamp := Z (only parsing).
#[warnings="-notation-for-abbreviation"]
Notation sample := (Z * pyobj)%type (only parsing).
#[warnings="-notation-for-abbreviation"]
Notation decision := (Z * pyobj * bool)%type (only parsing).

(** [isinstance(value, (int, float))], with the number when it holds. *)
Definition as_number (value : pyobj) : option num :=
  match value with
  | PyInt n => Some (of_int n)
  | PyFloat x => Some x
  | PyOther => None
  end.

(** The sanity check of both loops:
    [not isinstance(value, (int, float)) or value < 0]. *)
Definition invalid (value : pyobj) : bool :=
  match as_number value with
  | None => true
  | Some x => ltb x (of_int 0)
  end.

(** ** energy_data/data.py *)

Module EnergyData.
Section Lookup.

(** [_get_energy_value]: sines and seeded Gaussian noise; only the fact
    that it returns a float matters here. *)
Variable _get_energy_value : Z -> num.

(** [range(steps)]. *)
Definition range (steps : Z) : list Z := map Z.of_nat (seq 0 (Z.to_nat steps)).

Definition get_historical_energy_data
    (start end_ : R) (timestamp_increment : Z) : result (list sample) :=
  if (timestamp_increment <=? 0)%Z then Raise ValueError
  else
    let timestamp :=
      (ceil (start / IZR timestamp_increment) * timestamp_increment)%Z in
    let steps :=
      (floor ((end_ - IZR timestamp) / IZR timestamp_increment) + 1)%Z in
    Ok (map (fun i =>
               ((timestamp + timestamp_increment * i)%Z,
                PyFloat (_get_energy_value
                           (timestamp + timestamp_increment * i)%Z)))
            (range steps)).

(** The default of the [timestamp_increment] parameter. *)
Definition default_timestamp_increment : Z := 86400.

(** The lookup as [main.py] passes it: called with two arguments. *)
Definition historical_lookup (start end_ : R) : result (list sample) :=
  get_historical_energy_data start end_ default_timestamp_increment.

End Lookup.
End EnergyData.

(** ** anomaly_detection/z_score.py *)

Module ZScore.

Record state : Type := mkState {
  rolling_sum : num;
  rolling_squared_sum : num;
  window_values : list num;
  window_squared_values : list num
}.

(** Lines 81-86. *)
Definition initial_state : state :=
  mkState (of_int 0) (of_int 0) [] [].

(** Lines 95-99 and 111-115: add to the running totals, append to the
    queues. *)
Definition push (st : state) (value : num) : state :=
  {| rolling_sum := add (rolling_sum st) value;
     rolling_squared_sum := add (rolling_squared_sum st) (pow2 value);
     window_values := window_values st ++ [value];
     window_squared_values := window_squared_values st ++ [pow2 value] |}.

(** One iteration of the historical loop, lines 89-99. *)
Definition bootstrap_sample (st : state) (smp : sample) : state :=
  let '(_, value) := smp in
  if invalid value then st
  else match as_number value with
       | Some x => push st x
       | None => st
       end.

Definition bootstrap (historical_energy_data : list sample) : state :=
  fold_left bootstrap_sample historical_energy_data initial_state.

(** Line 119. *)
Definition rolling_mean (window : Z) (st : state) : result num :=
  div (rolling_sum st) (of_int window).

(** The argument of [math.sqrt] on line 120. *)
Definition rolling_variance (window : Z) (st : state) (mean : num)
  : result num :=
  div (add (sub (mul (of_int window) (pow2 mean))
                (mul (mul (of_int 2) mean) (rolling_sum st)))
           (rolling_squared_sum st))
      (of_int (window - 1)).

(** Line 120. *)
Definition rolling_std (window : Z) (st : state) (mean : num)
  : result num :=
  variance <- rolling_variance window st mean ;;
  math_sqrt variance.

(** Line 121. *)
Definition is_outlier (threshold : R) (value mean std : num) : result bool :=
  z <- div (sub value mean) std ;;
  Ok (gtb (PyNum.abs z) (Fin threshold)).

(** Lines 119-121 on the state that already holds the new value. *)
Definition decide (window : Z) (threshold : R) (st : state) (value : num)
  : result bool :=
  mean <- rolling_mean window st ;;
  std <- rolling_std window st mean ;;
  is_outlier threshold value mean std.

(** [deque.popleft]. *)
Definition popleft (q : list num) : result (num * list num) :=
  match q with
  | [] => Raise IndexError
  | x :: q' => Ok (x, q')
  end.

(** Lines 126-130. *)
Definition evict (st : state) : result state :=
  '(old_value, values) <- popleft (window_values st) ;;
  let rolling_sum' := sub (rolling_sum st) old_value in
  '(old_squared_value, squared_values) <- popleft (window_squared_values st) ;;
  Ok {| rolling_sum := rolling_sum';
        rolling_squared_sum := sub (rolling_squared_sum st) old_squared_value;
        window_values := values;
        window_squared_values := squared_values |}.

(** One iteration of the streaming loop, lines 102-130: the decisions it
    yields (none or one) and the state it leaves, or the exception that
    ends the generator. *)
Definition step (window : Z) (threshold : R) (st : state) (smp : sample)
  : list decision * result state :=
  let '(timestamp, value) := smp in
  if invalid value then ([], Ok st)
  else match as_number value with
       | None => ([], Ok st)
       | Some x =>
           let st1 := push st x in
           match decide window threshold st1 x with
           | Raise e => ([], Raise e)
           | Ok outlier => ([(timestamp, value, outlier)], evict st1)
           end
       end.

(** The streaming loop over the items pulled from the live stream. *)
Fixpoint stream_loop (window : Z) (threshold : R) (live : list sample)
    (st : state) : list decision * result state :=
  match live with
  | [] => ([], Ok st)
  | smp :: rest =>
      match step window threshold st smp with
      | (out, Ok st') =>
          let '(outs, final) := stream_loop window threshold rest st' in
          (out ++ outs, final)
      | (out, Raise e) => (out, Raise e)
      end
  end.

(** What a run of the generator did: the calls it made to the historical
    lookup, the decisions it yielded, and how it stands after the last
    item pulled. *)
Record outcome : Type := mkOutcome {
  lookups : list (R * R);
  emitted : list decision;
  final : result state
}.

(** [now] is the value of [time.time()] on line 74. *)
Definition process_z_score_outliers
    (get_historical_data : R -> R -> result (list sample))
    (generate_data_stream : Z -> R -> list sample)
    (now : R)
    (window : Z) (threshold : R) (timestamp_increment : Z) (stream_delay : R)
  : outcome :=
  if (window <=? 1)%Z then mkOutcome [] [] (Raise ValueError)
  else
    let historial_data_end_date := now in
    let historical_data_start_date :=
      historial_data_end_date - IZR ((window - 1) * timestamp_increment) in
    let call := (historical_data_start_date, historial_data_end_date) in
    match get_historical_data historical_data_start_date
                              historial_data_end_date with
    | Raise e => mkOutcome [call] [] (Raise e)
    | Ok historical_energy_data =>
        let st := bootstrap historical_energy_data in
        let '(outs, fin) :=
          stream_loop window threshold
            (generate_data_stream timestamp_increment stream_delay) st in
        mkOutcome [call] outs fin
    end.

(** Defaults of the keyword parameters. *)
Definition default_window : Z := 45.
Definition default_threshold : R := 225 / 100.
Definition default_timestamp_increment : Z := 86400.
Definition default_stream_delay : R := 1.

End ZScore.

Import ZScore.

(** ** Vocabulary of the properties *)

(** Values of the exact-arithmetic reading: ints and finite floats, and
    objects that are no numbers at all. *)
Definition finite_value (value : pyobj) : Prop :=
  match value with
  | PyFloat (Inf _) => False
  | PyFloat NaN => False
  | _ => True
  end.

Definition finite_sample (smp : sample) : Prop := finite_value (snd smp).

(** A value that is no number, or a number below zero. *)
Definition negative_or_non_numeric (value : pyobj) : Prop :=
  match value with
  | PyInt n => (n < 0)%Z
  | PyFloat (Fin x) => x < 0
  | PyFloat (Inf negative) => negative = true
  | PyFloat NaN => False
  | PyOther => True
  end.

(** A float that is not finite. *)
Definition not_finite (x : num) : Prop :=
  match x with
  | Fin _ => False
  | _ => True
  end.

(** The accumulators are the sum and the sum of squares of the values the
    window holds. *)
Definition accumulators_exact (st : state) : Prop :=
  rolling_sum st = total (window_values st) /\
  rolling_squared_sum st = total (map pow2 (window_values st)).

(** Sum, mean and sample variance of a list of reals, by rescanning it. *)
Definition Rsum (l : list R) : R := fold_right Rplus 0 l.

Definition Rsumsq (l : list R) : R := Rsum (map (fun x => x * x) l).

Definition mean_of (l : list R) : R := Rsum l / INR (length l).

Definition sample_variance (l : list R) : R :=
  Rsum (map (fun x => (x - mean_of l) * (x - mean_of l)) l)
  / (INR (length l) - 1).

(** The constant-time variance expression of line 120 on reals. *)
Definition variance_expr (window : Z) (S Q : R) : R :=
  let m := S / IZR window in
  (IZR window * (m * m) - 2 * m * S + Q) / IZR (window - 1).

(** The window holds exactly the reals [l], with matching squares and
    accumulators. *)
Definition holds (st : state) (l : list R) : Prop :=
  window_values st = map Fin l /\
  window_squared_values st = map Fin (map (fun x => x * x) l) /\
  rolling_sum st = Fin (Rsum l) /\
  rolling_squared_sum st = Fin (Rsumsq l).


(** ** energy_data/data.py: the simulated source *)

(** [x <= y] as a boolean. *)
Definition R_leb (x y : R) : bool := if Rle_dec x y then true else false.

Module EnergySource.
Section Source.

(** [random.seed(timestamp)] followed by [random.gauss()]: a standard normal
    draw that depends on the timestamp only. *)
Variable gauss : Z -> R.

(** [amplitude * math.sin(2 * math.pi * timestamp / (period * 24 * 60 * 60))],
    lines 56 and 59. *)
Definition sine_fn (amplitude period timestamp : Z) : result R :=
  if (period * 24 * 60 * 60 =? 0)%Z then Raise ZeroDivisionError
  else Ok (IZR amplitude
           * sin (2 * PI * IZR timestamp / IZR (period * 24 * 60 * 60))).

Definition _get_energy_value
    (timestamp seasonal_period seasonal_amplitude regular_period
       regular_amplitude noise y_offset : Z) : result num :=
  seasonal_fn <- sine_fn seasonal_amplitude seasonal_period timestamp ;;
  regular_fn <- sine_fn regular_amplitude regular_period timestamp ;;
  let random_fn := gauss timestamp * IZR noise in
  Ok (Fin (seasonal_fn + regular_fn + random_fn + IZR y_offset)).

(** The call with the timestamp alone, every keyword at its default. *)
Definition energy_value (timestamp : Z) : result num :=
  _get_energy_value timestamp 365 500 7 250 500 25000.

(** The float that call returns, as the list comprehension and the stream
    use it. *)
Definition energy_float (timestamp : Z) : num :=
  match energy_value timestamp with
  | Ok x => x
  | Raise _ => NaN
  end.

(** The body of [while True], lines 145-149, for the items pulled. *)
Fixpoint stream_items (timestamp timestamp_increment : Z) (pulled : nat)
  : list sample :=
  match pulled with
  | O => []
  | S n =>
      (timestamp, PyFloat (energy_float timestamp))
      :: stream_items (timestamp + timestamp_increment) timestamp_increment n
  end.

(** [clock] is the value of [time.time()] on line 143, read at the first
    pull; [pulled] is the number of items the consumer has pulled. *)
Definition generate_energy_data_stream
    (clock : R) (pulled : nat) (timestamp_increment : Z) (stream_delay : R)
  : result (list sample) :=
  if (timestamp_increment <=? 0)%Z then Raise ValueError
  else if R_leb stream_delay 0 then Raise ValueError
  else
    let timestamp :=
      (ceil (clock / IZR timestamp_increment) * timestamp_increment)%Z in
    Ok (stream_items timestamp timestamp_increment pulled).

End Source.
End EnergySource.

(** ** main.py: the plotted view *)

Module Main.

(** The three queues of [main] and its counter. *)
Record view : Type := mkView {
  timestamps : list Z;
  values : list pyobj;
  outliers : list (option pyobj);
  steps : Z
}.

Definition view_window : Z := 365.

Definition initial_view : view := mkView [] [] [] 0.

(** [deque.popleft] on a queue of any element type. *)
Definition pop_front {A : Type} (q : list A) : result (A * list A) :=
  match q with
  | [] => Raise IndexError
  | x :: q' => Ok (x, q')
  end.

(** The body of the loop, lines 30-54, without the drawing calls: what the
    queues hold when the chart is updated. *)
Definition plot_step (v : view) (d : decision) : result view :=
  let '(timestamp, value, is_outlier) := d in
  let timestamps' := timestamps v ++ [timestamp] in
  let values' := values v ++ [value] in
  let outliers' := outliers v ++ [if is_outlier then Some value else None] in
  if (view_window <? steps v)%Z then
    '(_, timestamps'') <- pop_front timestamps' ;;
    '(_, values'') <- pop_front values' ;;
    '(_, outliers'') <- pop_front outliers' ;;
    Ok (mkView timestamps'' values'' outliers'' (steps v + 1))
  else Ok (mkView timestamps' values' outliers' (steps v + 1)).

Fixpoint main_loop (decisions : list decision) (v : view) : result view :=
  match decisions with
  | [] => Ok v
  | d :: rest => v' <- plot_step v d ;; main_loop rest v'
  end.

(** The delay [main] passes to the engine. *)
Definition main_stream_delay : R := 5 / 100.

End Main.

(** ** More vocabulary *)

(** The real a finite accepted value stands for. *)
Definition real_of (value : pyobj) : R :=
  match as_number value with
  | Some (Fin r) => r
  | _ => 0
  end.

(** The samples that pass the check, in order, and their values. *)
Definition accepted (live : list sample) : list sample :=
  filter (fun smp => negb (invalid (snd smp))) live.

Definition accepted_reals (live : list sample) : list R :=
  map (fun smp => real_of (snd smp)) (accepted live).

(** A decision without its flag. *)
Definition unflagged (d : decision) : sample := fst d.

(** [l1] is an initial segment of [l2]. *)
Definition prefix_of {A : Type} (l1 l2 : list A) : Prop :=
  exists rest, l2 = l1 ++ rest.


(** * Properties *)

(** ** Boolean comparisons of reals *)

Lemma R_ltb_true (x y : R) : x < y -> R_ltb x y = true.
Proof. intros H. unfold R_ltb. destruct (Rlt_dec x y); [reflexivity | contradiction]. Qed.

Lemma R_ltb_false (x y : R) : ~ x < y -> R_ltb x y = false.
Proof. intros H. unfold R_ltb. destruct (Rlt_dec x y); [contradiction | reflexivity]. Qed.

Lemma R_eqb_true (x y : R) : x = y -> R_eqb x y = true.
Proof. intros H. unfold R_eqb. destruct (Req_dec_T x y); [reflexivity | contradiction]. Qed.

Lemma R_eqb_false (x y : R) : x <> y -> R_eqb x y = false.
Proof. intros H. unfold R_eqb. destruct (Req_dec_T x y); [contradiction | reflexivity]. Qed.

Lemma R_ltb_iff (x y : R) : R_ltb x y = true <-> x < y.
Proof.
  unfold R_ltb. destruct (Rlt_dec x y); split; intros; try assumption;
    try reflexivity; try discriminate; contradiction.
Qed.

(** Settle every comparison in the goal that linear arithmetic decides. *)
Ltac rbool :=
  repeat match goal with
    | |- context [R_ltb ?x ?y] =>
        first [ rewrite (R_ltb_true x y) by lra
              | rewrite (R_ltb_false x y) by lra ]
    | |- context [R_eqb ?x ?y] =>
        first [ rewrite (R_eqb_true x y) by lra
              | rewrite (R_eqb_false x y) by lra ]
    end.

(** ** The validity check *)

Lemma invalid_iff (value : pyobj) :
  invalid value = true <-> negative_or_non_numeric value.
Proof.
  destruct value as [n | [x | s | ] | ]; cbn.
  - rewrite R_ltb_iff. split; [apply lt_IZR | apply IZR_lt].
  - apply R_ltb_iff.
  - reflexivity.
  - split; [discriminate | contradiction].
  - split; trivial.
Qed.

Lemma valid_finite (value : pyobj) :
  finite_value value -> invalid value = false ->
  exists r, as_number value = Some (Fin r) /\ 0 <= r.
Proof.
  intros Hf Hv.
  destruct value as [n | [x | s | ] | ]; cbn in *;
    try contradiction; try discriminate.
  - exists (IZR n). split; [reflexivity |].
    unfold R_ltb in Hv. destruct (Rlt_dec (IZR n) 0); [discriminate | lra].
  - exists x. split; [reflexivity |].
    unfold R_ltb in Hv. destruct (Rlt_dec x 0); [discriminate | lra].
Qed.

Lemma valid_as_number (value : pyobj) :
  invalid value = false -> exists x, as_number value = Some x.
Proof.
  unfold invalid. destruct (as_number value) as [x |]; [eauto | discriminate].
Qed.

(** ** Queue lengths *)

Lemma bootstrap_sample_invalid (st : state) (t : timestamp) (value : pyobj) :
  invalid value = true -> bootstrap_sample st (t, value) = st.
Proof. intros H. cbn. now rewrite H. Qed.

Lemma bootstrap_sample_valid (st : state) (t : timestamp) (value : pyobj) (x : num) :
  invalid value = false -> as_number value = Some x ->
  bootstrap_sample st (t, value) = push st x.
Proof. intros H Hx. cbn. now rewrite H, Hx. Qed.

Lemma step_invalid (window : Z) (threshold : R) (st : state)
    (t : timestamp) (value : pyobj) :
  invalid value = true -> step window threshold st (t, value) = ([], Ok st).
Proof. intros H. cbn. now rewrite H. Qed.

Lemma step_valid (window : Z) (threshold : R) (st : state)
    (t : timestamp) (value : pyobj) (x : num) :
  invalid value = false -> as_number value = Some x ->
  step window threshold st (t, value) =
  match decide window threshold (push st x) x with
  | Raise e => ([], Raise e)
  | Ok outlier => ([(t, value, outlier)], evict (push st x))
  end.
Proof. intros H Hx. cbn. now rewrite H, Hx. Qed.

(** Eviction right after a push always finds both queues non-empty and
    leaves them as long as they were before the push. *)
Lemma evict_push (st : state) (x : num) :
  exists st' old,
    evict (push st x) = Ok st' /\
    old :: window_values st' = window_values st ++ [x] /\
    length (window_values st') = length (window_values st) /\
    length (window_squared_values st') = length (window_squared_values st).
Proof.
  destruct st as [s q wv wsv]. unfold evict, push. cbn.
  destruct wv as [| a wv]; destruct wsv as [| b wsv]; cbn;
    eexists; eexists; (split; [reflexivity |]); cbn;
    rewrite ?length_app; cbn; repeat split; lia.
Qed.

Lemma step_length (window : Z) (threshold : R) (st st' : state)
    (smp : sample) (out : list decision) :
  step window threshold st smp = (out, Ok st') ->
  length (window_values st') = length (window_values st).
Proof.
  destruct smp as [t value]. cbn.
  destruct (invalid value).
  - intros H. now inversion H.
  - destruct (as_number value) as [x |]; [| intros H; now inversion H].
    destruct (decide window threshold (push st x) x); [| discriminate].
    destruct (evict_push st x) as (st2 & old & He & _ & Hl & _).
    intros H. inversion H as [[Ho Hs]]. rewrite He in Hs. inversion Hs. now subst.
Qed.

Lemma stream_loop_length (window : Z) (threshold : R) (live : list sample) :
  forall (st st' : state) (outs : list decision),
    stream_loop window threshold live st = (outs, Ok st') ->
    length (window_values st') = length (window_values st).
Proof.
  induction live as [| smp rest IH]; intros st st' outs; cbn.
  - intros H. now inversion H.
  - destruct (step window threshold st smp) as [out [st1 | e]] eqn:Hstep;
      [| discriminate].
    destruct (stream_loop window threshold rest st1) as [outs1 fin] eqn:Hrest.
    intros H. inversion H; subst.
    rewrite (IH _ _ _ Hrest). eapply step_length; eassumption.
Qed.

Lemma bootstrap_from_length (hist : list sample) :
  forall st : state,
    Forall (fun smp => invalid (snd smp) = false) hist ->
    length (window_values (fold_left bootstrap_sample hist st))
    = (length (window_values st) + length hist)%nat.
Proof.
  induction hist as [| [t value] rest IH]; intros st Hall; cbn [fold_left length].
  - lia.
  - inversion Hall as [| ? ? Hv Hrest]; subst. cbn in Hv.
    destruct (valid_as_number value Hv) as [x Hx].
    rewrite (bootstrap_sample_valid st t value x Hv Hx).
    rewrite (IH _ Hrest). cbn. rewrite length_app. cbn. lia.
Qed.

Lemma bootstrap_length (hist : list sample) :
  Forall (fun smp => invalid (snd smp) = false) hist ->
  length (window_values (bootstrap hist)) = length hist.
Proof. intros H. unfold bootstrap. now rewrite bootstrap_from_length. Qed.

(** ** Sums in exact arithmetic *)

Lemma Rsum_cons (x : R) (l : list R) : Rsum (x :: l) = x + Rsum l.
Proof. reflexivity. Qed.

Lemma Rsum_app (l1 l2 : list R) : Rsum (l1 ++ l2) = Rsum l1 + Rsum l2.
Proof.
  induction l1 as [| x l1 IH].
  - cbn [app]. unfold Rsum at 2. cbn. lra.
  - cbn [app]. rewrite !Rsum_cons, IH. lra.
Qed.

Lemma Rsumsq_app (l1 l2 : list R) : Rsumsq (l1 ++ l2) = Rsumsq l1 + Rsumsq l2.
Proof. unfold Rsumsq. rewrite map_app. apply Rsum_app. Qed.

Lemma Rsumsq_cons (x : R) (l : list R) : Rsumsq (x :: l) = x * x + Rsumsq l.
Proof. reflexivity. Qed.

Lemma fold_add_fin (l : list R) :
  forall a : R, fold_left add (map Fin l) (Fin a) = Fin (a + Rsum l).
Proof.
  induction l as [| x l IH]; intros a; cbn [map fold_left].
  - f_equal. unfold Rsum. cbn. lra.
  - cbn [add]. rewrite IH. f_equal. rewrite Rsum_cons. lra.
Qed.

Lemma total_fin (l : list R) : total (map Fin l) = Fin (Rsum l).
Proof. unfold total. rewrite fold_add_fin. f_equal. lra. Qed.

Lemma map_pow2_fin (l : list R) :
  map pow2 (map Fin l) = map Fin (map (fun x => x * x) l).
Proof. rewrite !map_map. reflexivity. Qed.

(** The centred sum of squares, expanded. *)
Lemma centred_squares (m : R) (l : list R) :
  Rsum (map (fun x => (x - m) * (x - m)) l)
  = Rsumsq l - 2 * m * Rsum l + INR (length l) * (m * m).
Proof.
  induction l as [| x l IH].
  - unfold Rsumsq, Rsum. cbn. lra.
  - cbn [map]. rewrite Rsum_cons, IH, Rsumsq_cons, Rsum_cons.
    change (length (x :: l)) with (S (length l)). rewrite S_INR. lra.
Qed.

(** The constant-time expression is the sample variance of any [window]
    reals. *)
Lemma variance_expr_sample (window : Z) (l : list R) :
  (1 < window)%Z -> Z.of_nat (length l) = window ->
  variance_expr window (Rsum l) (Rsumsq l) = sample_variance l.
Proof.
  intros Hw Hlen.
  assert (Hn : INR (length l) = IZR window)
    by (rewrite INR_IZR_INZ; now f_equal).
  assert (Hpos : 1 < IZR window) by (apply IZR_lt in Hw; exact Hw).
  unfold variance_expr, sample_variance, mean_of.
  rewrite centred_squares, Hn, minus_IZR.
  field. lra.
Qed.

(** ** The window invariant in exact arithmetic *)

Lemma holds_initial : holds initial_state [].
Proof. repeat split. Qed.

Lemma holds_exact (st : state) (l : list R) :
  holds st l -> accumulators_exact st.
Proof.
  intros (Hv & _ & Hs & Hq). unfold accumulators_exact.
  rewrite Hv, map_pow2_fin, !total_fin. now split.
Qed.

Lemma holds_length (st : state) (l : list R) :
  holds st l -> length (window_values st) = length l.
Proof. intros (Hv & _). rewrite Hv. apply length_map. Qed.

Lemma holds_push (st : state) (l : list R) (v : R) :
  holds st l -> holds (push st (Fin v)) (l ++ [v]).
Proof.
  intros (Hv & Hsq & Hs & Hq). unfold holds, push. cbn.
  rewrite Hv, Hsq, Hs, Hq, !map_app, Rsum_app, Rsumsq_app. cbn.
  repeat split; f_equal; unfold Rsum, Rsumsq; cbn; lra.
Qed.

Lemma holds_evict (st : state) (x : R) (l : list R) :
  holds st (x :: l) -> exists st', evict st = Ok st' /\ holds st' l.
Proof.
  intros (Hv & Hsq & Hs & Hq). unfold evict. rewrite Hv, Hsq, Hs, Hq.
  cbn [map popleft bind].
  eexists. split; [reflexivity |]. unfold holds.
  cbn [window_values window_squared_values rolling_sum rolling_squared_sum
       sub neg add].
  rewrite Rsum_cons, Rsumsq_cons.
  repeat split; f_equal; lra.
Qed.

Lemma bootstrap_sample_holds (st : state) (l : list R) (smp : sample) :
  holds st l -> finite_sample smp ->
  exists l', holds (bootstrap_sample st smp) l'.
Proof.
  intros Hh Hf. destruct smp as [t value]. unfold finite_sample in Hf. cbn in Hf.
  destruct (invalid value) eqn:Hv.
  - rewrite bootstrap_sample_invalid by assumption. eauto.
  - destruct (valid_finite value Hf Hv) as (r & Hr & _).
    rewrite (bootstrap_sample_valid st t value (Fin r)) by assumption.
    eexists. exact (holds_push st l r Hh).
Qed.

Lemma fold_bootstrap_holds (hist : list sample) :
  forall (st : state) (l : list R),
    holds st l -> Forall finite_sample hist ->
    exists l', holds (fold_left bootstrap_sample hist st) l'.
Proof.
  induction hist as [| smp rest IH]; intros st l Hh Hall; cbn [fold_left].
  - eauto.
  - inversion Hall as [| ? ? Hf Hrest]; subst.
    destruct (bootstrap_sample_holds st l smp Hh Hf) as [l1 H1].
    eapply IH; eassumption.
Qed.

Lemma bootstrap_holds (hist : list sample) :
  Forall finite_sample hist -> exists l, holds (bootstrap hist) l.
Proof. intros H. eapply fold_bootstrap_holds; [apply holds_initial | exact H]. Qed.

Lemma step_holds (window : Z) (threshold : R) (st st' : state) (l : list R)
    (smp : sample) (out : list decision) :
  holds st l -> finite_sample smp ->
  step window threshold st smp = (out, Ok st') ->
  exists l', holds st' l'.
Proof.
  intros Hh Hf. destruct smp as [t value]. unfold finite_sample in Hf. cbn in Hf.
  destruct (invalid value) eqn:Hv.
  - rewrite step_invalid by assumption. intros H. inversion H; subst. eauto.
  - destruct (valid_finite value Hf Hv) as (r & Hr & _).
    rewrite (step_valid window threshold st t value (Fin r)) by assumption.
    destruct (decide window threshold (push st (Fin r)) (Fin r)); [| discriminate].
    intros H. inversion H as [[Ho He]].
    pose proof (holds_push st l r Hh) as Hp.
    destruct (l ++ [r]) as [| x l'] eqn:Hl.
    + destruct l; discriminate.
    + destruct (holds_evict _ x l' Hp) as (st2 & He2 & H2).
      rewrite He2 in He. inversion He; subst. eauto.
Qed.

Lemma stream_loop_holds (window : Z) (threshold : R) (live : list sample) :
  forall (st st' : state) (l : list R) (outs : list decision),
    holds st l -> Forall finite_sample live ->
    stream_loop window threshold live st = (outs, Ok st') ->
    exists l', holds st' l'.
Proof.
  induction live as [| smp rest IH]; intros st st' l outs Hh Hall; cbn.
  - intros H. inversion H; subst. eauto.
  - inversion Hall as [| ? ? Hf Hrest]; subst.
    destruct (step window threshold st smp) as [out [st1 | e]] eqn:Hstep;
      [| discriminate].
    destruct (stream_loop window threshold rest st1) as [outs1 fin] eqn:Hloop.
    intros H. inversion H; subst.
    destruct (step_holds _ _ _ _ _ _ _ Hh Hf Hstep) as [l1 H1].
    eapply IH; eassumption.
Qed.

(** Every state a run over finite values reaches between two cycles. *)
Lemma run_holds (window : Z) (threshold : R) (hist live : list sample)
    (outs : list decision) (st : state) :
  Forall finite_sample hist -> Forall finite_sample live ->
  stream_loop window threshold live (bootstrap hist) = (outs, Ok st) ->
  exists l, holds st l.
Proof.
  intros Hh Hl Hrun. destruct (bootstrap_holds hist Hh) as [l0 H0].
  eapply stream_loop_holds; eassumption.
Qed.

(** ** The statistics of one decision, on finite accumulators *)

Lemma IZR_window_nonzero (window : Z) : (1 < window)%Z -> IZR window <> 0.
Proof. intros H. apply IZR_lt in H. lra. Qed.

Lemma IZR_pred_window_nonzero (window : Z) :
  (1 < window)%Z -> IZR (window - 1) <> 0.
Proof. intros H. rewrite minus_IZR. apply IZR_lt in H. lra. Qed.

Lemma rolling_mean_fin (window : Z) (st : state) (S : R) :
  (1 < window)%Z -> rolling_sum st = Fin S ->
  rolling_mean window st = Ok (Fin (S / IZR window)).
Proof.
  intros Hw Hs. unfold rolling_mean, of_int, div. rewrite Hs.
  now rewrite (R_eqb_false _ _ (IZR_window_nonzero window Hw)).
Qed.

Lemma rolling_variance_fin (window : Z) (st : state) (S Q m : R) :
  (1 < window)%Z -> rolling_sum st = Fin S -> rolling_squared_sum st = Fin Q ->
  rolling_variance window st (Fin m)
  = Ok (Fin ((IZR window * (m * m) - 2 * m * S + Q) / IZR (window - 1))).
Proof.
  intros Hw Hs Hq. unfold rolling_variance, of_int. rewrite Hs, Hq.
  cbn [pow2 mul sub neg add]. unfold div.
  now rewrite (R_eqb_false _ _ (IZR_pred_window_nonzero window Hw)).
Qed.

Lemma rolling_variance_expr (window : Z) (st : state) (S Q : R) :
  (1 < window)%Z -> rolling_sum st = Fin S -> rolling_squared_sum st = Fin Q ->
  rolling_variance window st (Fin (S / IZR window))
  = Ok (Fin (variance_expr window S Q)).
Proof. intros Hw Hs Hq. now rewrite (rolling_variance_fin window st S Q). Qed.

(** The three ways lines 119-121 can end. *)
Lemma decide_fin (window : Z) (threshold : R) (st : state) (S Q v : R) :
  (1 < window)%Z -> rolling_sum st = Fin S -> rolling_squared_sum st = Fin Q ->
  decide window threshold st (Fin v)
  = if R_ltb (variance_expr window S Q) 0 then Raise ValueError
    else if R_eqb (sqrt (variance_expr window S Q)) 0
         then Raise ZeroDivisionError
         else Ok (R_ltb threshold
                    (Rabs ((v - S / IZR window)
                           / sqrt (variance_expr window S Q)))).
Proof.
  intros Hw Hs Hq. unfold decide, rolling_std.
  rewrite (rolling_mean_fin window st S Hw Hs).
  cbn [bind]. rewrite (rolling_variance_expr window st S Q Hw Hs Hq).
  cbn [bind math_sqrt].
  destruct (R_ltb (variance_expr window S Q) 0); [reflexivity |].
  cbn [bind]. unfold is_outlier. cbn [sub neg add div].
  destruct (R_eqb (sqrt (variance_expr window S Q)) 0); reflexivity.
Qed.

Lemma decide_positive (window : Z) (threshold : R) (st : state) (S Q v : R) :
  (1 < window)%Z -> rolling_sum st = Fin S -> rolling_squared_sum st = Fin Q ->
  0 < variance_expr window S Q ->
  decide window threshold st (Fin v)
  = Ok (R_ltb threshold
          (Rabs ((v - S / IZR window) / sqrt (variance_expr window S Q)))).
Proof.
  intros Hw Hs Hq Hpos. rewrite (decide_fin window threshold st S Q v Hw Hs Hq).
  pose proof (sqrt_lt_R0 _ Hpos) as Hsd.
  rewrite R_ltb_false by lra. now rewrite R_eqb_false by lra.
Qed.

Lemma decide_zero (window : Z) (threshold : R) (st : state) (S Q v : R) :
  (1 < window)%Z -> rolling_sum st = Fin S -> rolling_squared_sum st = Fin Q ->
  variance_expr window S Q = 0 ->
  decide window threshold st (Fin v) = Raise ZeroDivisionError.
Proof.
  intros Hw Hs Hq Hz. rewrite (decide_fin window threshold st S Q v Hw Hs Hq).
  rewrite Hz, sqrt_0. rewrite R_ltb_false by lra. now rewrite R_eqb_true.
Qed.

Lemma decide_negative (window : Z) (threshold : R) (st : state) (S Q v : R) :
  (1 < window)%Z -> rolling_sum st = Fin S -> rolling_squared_sum st = Fin Q ->
  variance_expr window S Q < 0 ->
  decide window threshold st (Fin v) = Raise ValueError.
Proof.
  intros Hw Hs Hq Hneg. rewrite (decide_fin window threshold st S Q v Hw Hs Hq).
  now rewrite R_ltb_true.
Qed.

(** Sums of a constant list. *)
Lemma Rsum_repeat (c : R) (n : nat) : Rsum (repeat c n) = INR n * c.
Proof.
  induction n as [| n IH].
  - unfold Rsum. cbn. lra.
  - cbn [repeat]. rewrite Rsum_cons, IH, S_INR. lra.
Qed.

Lemma Rsumsq_repeat (c : R) (n : nat) : Rsumsq (repeat c n) = INR n * (c * c).
Proof.
  induction n as [| n IH].
  - unfold Rsumsq, Rsum. cbn. lra.
  - cbn [repeat]. rewrite Rsumsq_cons, IH, S_INR. lra.
Qed.

Lemma variance_expr_constant (window : Z) (c : R) (n : nat) :
  (1 < window)%Z -> Z.of_nat n = window ->
  variance_expr window (Rsum (repeat c n)) (Rsumsq (repeat c n)) = 0.
Proof.
  intros Hw Hn.
  assert (Hi : INR n = IZR window) by (rewrite INR_IZR_INZ; now f_equal).
  assert (Hpos : 1 < IZR window) by (apply IZR_lt in Hw; exact Hw).
  rewrite Rsum_repeat, Rsumsq_repeat, Hi. unfold variance_expr.
  rewrite minus_IZR. field. lra.
Qed.

Lemma map_fin_inj (l1 l2 : list R) : map Fin l1 = map Fin l2 -> l1 = l2.
Proof.
  revert l2. induction l1 as [| x l1 IH]; intros [| y l2] H;
    try discriminate; [reflexivity |].
  cbn in H. inversion H. f_equal. now apply IH.
Qed.


(** ** Which exceptions the loop can raise *)

Lemma div_raises (a b : num) (e : exn) :
  div a b = Raise e -> e = ZeroDivisionError.
Proof.
  unfold div. destruct b as [y | s |]; try discriminate.
  destruct (R_eqb y 0); [| discriminate]. intros H. now inversion H.
Qed.

Lemma math_sqrt_raises (a : num) (e : exn) :
  math_sqrt a = Raise e -> e = ValueError.
Proof.
  unfold math_sqrt. destruct a as [x | [|] |]; try discriminate.
  - destruct (R_ltb x 0); [| discriminate]. intros H. now inversion H.
  - intros H. now inversion H.
Qed.

Lemma decide_raises (window : Z) (threshold : R) (st : state) (x : num) (e : exn) :
  decide window threshold st x = Raise e ->
  e = ZeroDivisionError \/ e = ValueError.
Proof.
  unfold decide, rolling_mean, rolling_std, rolling_variance, is_outlier.
  destruct (div (rolling_sum st) (of_int window)) as [mean | e1] eqn:Hm; cbn [bind].
  - match goal with
    | |- context [div ?n (of_int (window - 1))] =>
        destruct (div n (of_int (window - 1))) as [var | e2] eqn:Hv
    end; cbn [bind].
    + destruct (math_sqrt var) as [std | e3] eqn:Hs; cbn [bind].
      * destruct (div (sub x mean) std) as [z | e4] eqn:Hz; cbn [bind].
        -- discriminate.
        -- intros H. inversion H; subst. left. eapply div_raises; eassumption.
      * intros H. inversion H; subst. right. eapply math_sqrt_raises; eassumption.
    + intros H. inversion H; subst. left. eapply div_raises; eassumption.
  - intros H. inversion H; subst. left. eapply div_raises; eassumption.
Qed.

Lemma step_never_index_error (window : Z) (threshold : R) (st : state)
    (smp : sample) :
  snd (step window threshold st smp) <> Raise IndexError.
Proof.
  destruct smp as [t value]. cbn.
  destruct (invalid value); [discriminate |].
  destruct (as_number value) as [x |]; [| discriminate].
  destruct (decide window threshold (push st x) x) as [b | e] eqn:Hd.
  - destruct (evict_push st x) as (st' & old & He & _). cbn. rewrite He. discriminate.
  - cbn. intros H. inversion H; subst.
    destruct (decide_raises _ _ _ _ _ Hd); discriminate.
Qed.

Lemma stream_loop_never_index_error (window : Z) (threshold : R)
    (live : list sample) :
  forall st : state,
    snd (stream_loop window threshold live st) <> Raise IndexError.
Proof.
  induction live as [| smp rest IH]; intros st; cbn.
  - discriminate.
  - pose proof (step_never_index_error window threshold st smp) as Hs.
    destruct (step window threshold st smp) as [out [st1 | e]]; cbn in *.
    + specialize (IH st1).
      destruct (stream_loop window threshold rest st1) as [outs fin]. exact IH.
    + exact Hs.
Qed.

(** ** One cycle on a window of reals *)

Lemma bootstrap_sample_push (st : state) (l : list R) (t : timestamp)
    (value : pyobj) (r : R) :
  holds st l -> invalid value = false -> as_number value = Some (Fin r) ->
  holds (bootstrap_sample st (t, value)) (l ++ [r]).
Proof.
  intros Hh Hv Hr. rewrite (bootstrap_sample_valid st t value (Fin r) Hv Hr).
  now apply holds_push.
Qed.

(** A cycle whose variance is positive yields its decision and evicts. *)
Lemma step_emits (window : Z) (threshold : R) (st : state) (x : R)
    (l : list R) (t : timestamp) (value : pyobj) (v : R) :
  (1 < window)%Z -> holds st (x :: l) ->
  invalid value = false -> as_number value = Some (Fin v) ->
  0 < variance_expr window (Rsum (x :: l ++ [v])) (Rsumsq (x :: l ++ [v])) ->
  exists st',
    step window threshold st (t, value)
    = ([(t, value,
         R_ltb threshold
           (Rabs ((v - Rsum (x :: l ++ [v]) / IZR window)
                  / sqrt (variance_expr window (Rsum (x :: l ++ [v]))
                                        (Rsumsq (x :: l ++ [v]))))))],
       Ok st')
    /\ holds st' (l ++ [v]).
Proof.
  intros Hw Hh Hv Hr Hpos.
  pose proof (holds_push st (x :: l) v Hh) as Hp. cbn [app] in Hp.
  destruct Hp as (Hwv & Hwsv & Hs & Hq).
  rewrite (step_valid window threshold st t value (Fin v) Hv Hr).
  rewrite (decide_positive window threshold _ _ _ v Hw Hs Hq Hpos).
  destruct (holds_evict (push st (Fin v)) x (l ++ [v])) as (st' & He & H').
  { repeat split; assumption. }
  exists st'. rewrite He. now split.
Qed.

(** A cycle on [window] equal values divides by a zero deviation. *)
Lemma constant_window_raises (window : Z) (threshold : R) (st : state)
    (l : list R) (t : timestamp) (value : pyobj) (c : R) :
  (1 < window)%Z -> holds st l ->
  invalid value = false -> as_number value = Some (Fin c) ->
  l ++ [c] = repeat c (length (l ++ [c])) ->
  Z.of_nat (length (l ++ [c])) = window ->
  step window threshold st (t, value) = ([], Raise ZeroDivisionError).
Proof.
  intros Hw Hh Hv Hr Hrep Hlen.
  destruct (holds_push st l c Hh) as (_ & _ & Hs & Hq).
  rewrite (step_valid window threshold st t value (Fin c) Hv Hr).
  rewrite (decide_zero window threshold _ _ _ c Hw Hs Hq); [reflexivity |].
  rewrite Hrep. now apply variance_expr_constant.
Qed.

(** ** [math.floor] and [math.ceil] *)

Lemma floor_bounds (x : R) : IZR (floor x) <= x < IZR (floor x) + 1.
Proof.
  unfold floor. rewrite minus_IZR. destruct (archimed x) as [H1 H2]. lra.
Qed.

Lemma floor_unique (x : R) (z : Z) : IZR z <= x < IZR z + 1 -> floor x = z.
Proof.
  intros [H1 H2]. unfold floor.
  assert (H : (z + 1)%Z = up x) by (apply tech_up; rewrite plus_IZR; lra).
  lia.
Qed.

Lemma ceil_bounds (x : R) : IZR (ceil x) - 1 < x <= IZR (ceil x).
Proof.
  unfold ceil. rewrite opp_IZR. destruct (floor_bounds (- x)) as [H1 H2]. lra.
Qed.

Lemma ceil_unique (x : R) (z : Z) : IZR z - 1 < x <= IZR z -> ceil x = z.
Proof.
  intros [H1 H2]. unfold ceil.
  rewrite (floor_unique (- x) (- z)); [lia |]. rewrite opp_IZR. lra.
Qed.

Lemma range_length (steps : Z) :
  length (EnergyData.range steps) = Z.to_nat steps.
Proof. unfold EnergyData.range. now rewrite length_map, length_seq. Qed.

(** ** The historical lookup *)

Lemma lookup_ok (energy : Z -> num) (start end_ : R) (inc : Z) :
  (0 < inc)%Z ->
  exists hist,
    EnergyData.get_historical_energy_data energy start end_ inc = Ok hist /\
    length hist
    = Z.to_nat (floor ((end_ - IZR (ceil (start / IZR inc) * inc)) / IZR inc) + 1) /\
    Forall (fun smp => exists t, snd smp = PyFloat (energy t)) hist.
Proof.
  intros Hinc. unfold EnergyData.get_historical_energy_data.
  destruct (Z.leb_spec inc 0) as [H | H]; [lia |].
  eexists. split; [reflexivity |]. split.
  - now rewrite length_map, range_length.
  - apply Forall_forall. intros smp Hin. apply in_map_iff in Hin.
    destruct Hin as (i & Hi & _). subst smp. cbn. eauto.
Qed.

(** The number of steps between the rounded start and [now], with the
    start [window - 1] increments back. *)
Lemma steps_between (now : R) (window inc : Z) :
  (1 < window)%Z -> (0 < inc)%Z ->
  let start := now - IZR ((window - 1) * inc) in
  let steps :=
    (floor ((now - IZR (ceil (start / IZR inc) * inc)) / IZR inc) + 1)%Z in
  ((forall z, now <> IZR z * IZR inc) -> steps = (window - 1)%Z) /\
  ((exists z, now = IZR z * IZR inc) -> steps = window).
Proof.
  intros Hw Hinc start steps.
  assert (HI : 0 < IZR inc) by (apply IZR_lt in Hinc; exact Hinc).
  set (q := now / IZR inc).
  assert (Hstart : start / IZR inc = q - IZR (window - 1)).
  { unfold start, q. rewrite mult_IZR. field. lra. }
  set (c := ceil (start / IZR inc)).
  assert (Hc : IZR c - 1 < q - IZR (window - 1) <= IZR c).
  { rewrite <- Hstart. apply ceil_bounds. }
  assert (Harg : (now - IZR (c * inc)) / IZR inc = q - IZR c).
  { unfold q. rewrite mult_IZR. field. lra. }
  assert (Hnow : now = q * IZR inc) by (unfold q; field; lra).
  unfold steps. fold c. rewrite Harg. rewrite minus_IZR in Hc.
  split.
  - intros Hno.
    rewrite (floor_unique (q - IZR c) (window - 2)); [lia |].
    rewrite minus_IZR. split; [lra |].
    destruct (Req_dec_T (q - IZR c) (IZR window - 1)) as [Heq | Hne]; [| lra].
    exfalso. apply (Hno (c + window - 1)%Z).
    rewrite Hnow at 1. f_equal. rewrite minus_IZR, plus_IZR. lra.
  - intros [z Hz].
    assert (Hq : q = IZR z) by (unfold q; rewrite Hz; field; lra).
    assert (Hcz : c = (z - (window - 1))%Z).
    { apply eq_IZR. rewrite Hq, <- !minus_IZR in Hc.
      destruct Hc as [H1 H2]. apply lt_IZR in H1. apply le_IZR in H2.
      f_equal. lia. }
    rewrite (floor_unique (q - IZR c) (window - 1)); [lia |].
    rewrite Hq, Hcz, !minus_IZR. lra.
Qed.

(** With the engine's increment equal to the lookup's and [now] off the
    increment grid, the lookup returns [window - 1] samples. *)
Lemma lookup_window_minus_one (energy : Z -> num) (now : R) (window inc : Z) :
  (1 < window)%Z -> (0 < inc)%Z ->
  (forall z, now <> IZR z * IZR inc) ->
  exists hist,
    EnergyData.get_historical_energy_data energy
      (now - IZR ((window - 1) * inc)) now inc = Ok hist /\
    Z.of_nat (length hist) = (window - 1)%Z.
Proof.
  intros Hw Hinc Hno.
  destruct (lookup_ok energy (now - IZR ((window - 1) * inc)) now inc Hinc)
    as (hist & Hok & Hlen & _).
  exists hist. split; [exact Hok |].
  destruct (steps_between now window inc Hw Hinc) as [Hgen _].
  rewrite Hlen, (Hgen Hno). lia.
Qed.

(** With [now] on the increment grid both ends of the range are returned. *)
Lemma lookup_window_aligned (energy : Z -> num) (now : R) (window inc z : Z) :
  (1 < window)%Z -> (0 < inc)%Z -> now = IZR z * IZR inc ->
  exists hist,
    EnergyData.get_historical_energy_data energy
      (now - IZR ((window - 1) * inc)) now inc = Ok hist /\
    Z.of_nat (length hist) = window.
Proof.
  intros Hw Hinc Hz.
  destruct (lookup_ok energy (now - IZR ((window - 1) * inc)) now inc Hinc)
    as (hist & Hok & Hlen & _).
  exists hist. split; [exact Hok |].
  destruct (steps_between now window inc Hw Hinc) as [_ Hal].
  rewrite Hlen, (Hal (ex_intro _ z Hz)). lia.
Qed.

(** ** Runs used as examples *)

Lemma valid_int (n : Z) : (0 <= n)%Z -> invalid (PyInt n) = false.
Proof. intros H. cbn. apply R_ltb_false. apply IZR_le in H. lra. Qed.

(** History 0, 1 and then the live value 2 with [window = 3]: the variance
    is 1, the deviation of the new value is one standard deviation. *)
Lemma run_0_1_2 :
  holds (bootstrap [(0%Z, PyInt 0); (1%Z, PyInt 1)]) [0; 1] /\
  exists st,
    stream_loop 3 default_threshold [(2%Z, PyInt 2)]
      (bootstrap [(0%Z, PyInt 0); (1%Z, PyInt 1)])
    = ([(2%Z, PyInt 2, false)], Ok st)
    /\ holds st [1; 2].
Proof.
  assert (Hb : holds (bootstrap [(0%Z, PyInt 0); (1%Z, PyInt 1)]) [0; 1]).
  { unfold bootstrap. cbn [fold_left].
    apply (bootstrap_sample_push _ [0]); [| now apply valid_int | reflexivity].
    apply (bootstrap_sample_push _ []); [| now apply valid_int | reflexivity].
    apply holds_initial. }
  split; [exact Hb |].
  assert (Hvar : variance_expr 3 (Rsum (0 :: [1] ++ [2])) (Rsumsq (0 :: [1] ++ [2])) = 1).
  { unfold variance_expr, Rsumsq, Rsum. cbn. field. }
  destruct (step_emits 3 default_threshold _ 0 [1] 2%Z (PyInt 2) 2
              ltac:(lia) Hb (valid_int 2 ltac:(lia)) eq_refl)
    as (st & Hstep & Hst).
  { rewrite Hvar. lra. }
  exists st. split; [| exact Hst].
  cbn [stream_loop]. rewrite Hstep, Hvar, sqrt_1. cbn [app]. repeat f_equal.
  apply R_ltb_false. unfold Rsum, default_threshold. cbn [fold_right].
  replace ((2 - (0 + (1 + (2 + 0))) / 3) / 1) with 1 by field.
  rewrite Rabs_R1. lra.
Qed.

(** ** Properties of the specification *)

(** C7.  With [window <= 1] the generator raises [ValueError] at once: the
    historical lookup has not been called and nothing has been yielded. *)
Theorem window_too_small_raises
    (get_historical_data : R -> R -> result (list sample))
    (generate_data_stream : Z -> R -> list sample)
    (now : R) (window : Z) (threshold : R) (timestamp_increment : Z)
    (stream_delay : R) :
  (window <= 1)%Z ->
  process_z_score_outliers get_historical_data generate_data_stream now
    window threshold timestamp_increment stream_delay
  = mkOutcome [] [] (Raise ValueError).
Proof.
  intros Hw. unfold process_z_score_outliers.
  destruct (Z.leb_spec window 1) as [_ | H]; [reflexivity | lia].
Qed.

Lemma window_too_small_raises_witness :
  (1 <= 1)%Z /\
  process_z_score_outliers
    (fun _ _ => Ok [(0%Z, PyInt 5)]) (fun _ _ => [(1%Z, PyInt 7)]) 1000
    1 default_threshold default_timestamp_increment default_stream_delay
  = mkOutcome [] [] (Raise ValueError).
Proof.
  split; [lia |]. apply window_too_small_raises. lia.
Defined.

(** C9.  Eviction never pops an empty queue: right after a push both queues
    are non-empty and [evict] succeeds, so no run ends in [IndexError],
    whatever the historical and live samples are, also when no historical
    sample is valid and the bootstrap leaves the window empty. *)
Theorem eviction_never_on_empty (window : Z) (threshold : R)
    (hist live : list sample) :
  (forall (st : state) (x : num),
      window_values (push st x) <> [] /\
      window_squared_values (push st x) <> [] /\
      exists st', evict (push st x) = Ok st') /\
  snd (stream_loop window threshold live (bootstrap hist)) <> Raise IndexError.
Proof.
  split.
  - intros st x. repeat split.
    + cbn. destruct (window_values st); discriminate.
    + cbn. destruct (window_squared_values st); discriminate.
    + destruct (evict_push st x) as (st' & old & He & _). eauto.
  - apply stream_loop_never_index_error.
Qed.

(** A live int after a history that is the float [inf] alone: the cycle
    yields a decision, and evicting [inf] leaves [inf - inf = NaN] in both
    accumulators. *)
Lemma step_after_inf (window : Z) (threshold : R) (t n : Z) :
  (1 < window)%Z -> (0 <= n)%Z ->
  step window threshold (push initial_state (Inf false)) (t, PyInt n)
  = ([(t, PyInt n, false)],
     Ok (mkState NaN NaN [Fin (IZR n)] [Fin (IZR n * IZR n)])).
Proof.
  intros Hw Hn.
  assert (Hpos : 1 < IZR window) by (apply IZR_lt in Hw; exact Hw).
  assert (Hpred : 0 < IZR window - 1) by lra.
  rewrite (step_valid window threshold _ t (PyInt n) (Fin (IZR n)))
    by (try apply valid_int; try reflexivity; assumption).
  unfold decide, rolling_mean, rolling_std, rolling_variance, is_outlier, of_int.
  rewrite minus_IZR.
  cbn [push initial_state rolling_sum rolling_squared_sum of_int add pow2 mul
       xorb div Bool.eqb].
  rbool. cbn [bind xorb mul pow2]. rbool.
  cbn [xorb sub neg add negb Bool.eqb mul div]. rbool.
  cbn [bind math_sqrt div sub neg add negb PyNum.abs gtb ltb].
  unfold evict.
  cbn [push initial_state window_values window_squared_values rolling_sum
       rolling_squared_sum app popleft bind sub neg add negb Bool.eqb pow2 mul
       xorb].
  reflexivity.
Qed.

(** C3 (amended).  In a run over finite values, in exact arithmetic, at
    every point: after the bootstrap of every prefix of the historical data,
    before a live value is pushed, after it is pushed, and after the
    eviction that follows, [rolling_sum] is the sum of the values in the
    window and [rolling_squared_sum] the sum of their squares. *)
Theorem accumulators_track_window (window : Z) (threshold : R)
    (hist live : list sample) (outs : list decision) (st : state) :
  Forall finite_sample hist -> Forall finite_sample live ->
  stream_loop window threshold live (bootstrap hist) = (outs, Ok st) ->
  (forall h1 h2, hist = h1 ++ h2 -> accumulators_exact (bootstrap h1)) /\
  accumulators_exact st /\
  (forall r : R,
      accumulators_exact (push st (Fin r)) /\
      forall st', evict (push st (Fin r)) = Ok st' -> accumulators_exact st').
Proof.
  intros Hh Hl Hrun. split; [| split].
  - intros h1 h2 Heq. subst hist. apply Forall_app in Hh. destruct Hh as [H1 _].
    destruct (bootstrap_holds h1 H1) as [l Hl1]. eapply holds_exact; eassumption.
  - destruct (run_holds _ _ _ _ _ _ Hh Hl Hrun) as [l H]. eapply holds_exact; eassumption.
  - intros r. destruct (run_holds _ _ _ _ _ _ Hh Hl Hrun) as [l H].
    pose proof (holds_push st l r H) as Hp. split.
    + eapply holds_exact; eassumption.
    + intros st' He. destruct (l ++ [r]) as [| x l'] eqn:Hl'.
      * destruct l; discriminate.
      * destruct (holds_evict _ x l' Hp) as (st2 & He2 & H2).
        rewrite He2 in He. inversion He; subst. eapply holds_exact; eassumption.
Qed.

Lemma accumulators_track_window_witness :
  exists st,
    stream_loop 3 default_threshold [(2%Z, PyInt 2)]
      (bootstrap [(0%Z, PyInt 0); (1%Z, PyInt 1)])
    = ([(2%Z, PyInt 2, false)], Ok st) /\
    accumulators_exact st.
Proof.
  destruct run_0_1_2 as (_ & st & Hrun & _).
  exists st. split; [exact Hrun |].
  refine (proj1 (proj2 (accumulators_track_window 3 default_threshold
                          [(0%Z, PyInt 0); (1%Z, PyInt 1)] [(2%Z, PyInt 2)]
                          _ st _ _ Hrun)));
    repeat constructor.
Defined.

(** With [window = 2], the history [inf] and the live value 1: [inf] passes
    the check, the cycle yields a decision, and after the eviction the
    window holds 1 alone while [rolling_sum] is [NaN]. *)
Lemma accumulators_counterexample :
  exists st,
    stream_loop 2 default_threshold [(1%Z, PyInt 1)]
      (bootstrap [(0%Z, PyFloat (Inf false))])
    = ([(1%Z, PyInt 1, false)], Ok st) /\
    window_values st = [Fin 1] /\
    rolling_sum st = NaN /\
    ~ accumulators_exact st.
Proof.
  eexists. split.
  - change (bootstrap [(0%Z, PyFloat (Inf false))])
      with (push initial_state (Inf false)).
    cbn [stream_loop].
    rewrite (step_after_inf 2 default_threshold 1 1) by lia. reflexivity.
  - cbn. split; [reflexivity |]. split; [reflexivity |].
    intros [H _]. discriminate H.
Qed.

(** C2 (amended).  When the lookup returns [window - 1] valid samples, the
    window holds exactly [window - 1] values right after the bootstrap and
    after every eviction; it holds [window] values only at the decision
    point, between the push and the eviction. *)
Theorem window_size_between_cycles (window : Z) (threshold : R)
    (hist live : list sample) (outs : list decision) (st : state) :
  Forall (fun smp => invalid (snd smp) = false) hist ->
  Z.of_nat (length hist) = (window - 1)%Z ->
  stream_loop window threshold live (bootstrap hist) = (outs, Ok st) ->
  Z.of_nat (length (window_values (bootstrap hist))) = (window - 1)%Z /\
  Z.of_nat (length (window_values st)) = (window - 1)%Z /\
  forall x : num, Z.of_nat (length (window_values (push st x))) = window.
Proof.
  intros Hv Hlen Hrun.
  pose proof (bootstrap_length hist Hv) as Hb.
  pose proof (stream_loop_length _ _ _ _ _ _ Hrun) as Hs.
  repeat split.
  - lia.
  - lia.
  - intros x. cbn. rewrite length_app. cbn. lia.
Qed.

Lemma window_size_between_cycles_witness :
  exists st,
    stream_loop 3 default_threshold [(2%Z, PyInt 2)]
      (bootstrap [(0%Z, PyInt 0); (1%Z, PyInt 1)])
    = ([(2%Z, PyInt 2, false)], Ok st) /\
    Z.of_nat (length (window_values st)) = (3 - 1)%Z.
Proof.
  destruct run_0_1_2 as (_ & st & Hrun & _).
  exists st. split; [exact Hrun |].
  refine (proj1 (proj2 (window_size_between_cycles 3 default_threshold
                          [(0%Z, PyInt 0); (1%Z, PyInt 1)] [(2%Z, PyInt 2)]
                          _ st _ _ Hrun))).
  - repeat constructor; apply valid_int; lia.
  - reflexivity.
Defined.

(** With [window = 3] and two valid historical samples the window holds two
    values after the bootstrap and two after the first decision, not three. *)
Lemma window_size_counterexample :
  Z.of_nat (length (window_values (bootstrap [(0%Z, PyInt 0); (1%Z, PyInt 1)])))
  <> 3%Z /\
  exists st,
    stream_loop 3 default_threshold [(2%Z, PyInt 2)]
      (bootstrap [(0%Z, PyInt 0); (1%Z, PyInt 1)])
    = ([(2%Z, PyInt 2, false)], Ok st) /\
    Z.of_nat (length (window_values st)) <> 3%Z.
Proof.
  destruct run_0_1_2 as (Hb & st & Hrun & Hst). split.
  - rewrite (holds_length _ _ Hb). cbn. lia.
  - exists st. split; [exact Hrun |]. rewrite (holds_length _ _ Hst). cbn. lia.
Qed.

(** Dropping a discarded sample from either sequence changes nothing. *)
Lemma bootstrap_skip (smp : sample) (h1 h2 : list sample) :
  (forall st, bootstrap_sample st smp = st) ->
  bootstrap (h1 ++ smp :: h2) = bootstrap (h1 ++ h2).
Proof.
  intros H. unfold bootstrap. rewrite !fold_left_app. cbn [fold_left].
  now rewrite H.
Qed.

Lemma stream_loop_skip (window : Z) (threshold : R) (smp : sample)
    (l1 l2 : list sample) :
  (forall st, step window threshold st smp = ([], Ok st)) ->
  forall st,
    stream_loop window threshold (l1 ++ smp :: l2) st
    = stream_loop window threshold (l1 ++ l2) st.
Proof.
  intros H. induction l1 as [| s l1 IH]; intros st; cbn [app stream_loop].
  - rewrite H. destruct (stream_loop window threshold l2 st). reflexivity.
  - destruct (step window threshold st s) as [out [st1 | e]]; [| reflexivity].
    now rewrite IH.
Qed.

(** C5 (amended).  Every sample, historical or live, whose value is not a
    number or is a negative number is discarded: the state (both
    accumulators and both queues) is unchanged, nothing is yielded for it,
    and the run continues as if the sample had not been there. *)
Theorem invalid_sample_skipped (window : Z) (threshold : R)
    (t : timestamp) (value : pyobj) :
  negative_or_non_numeric value ->
  (forall st, bootstrap_sample st (t, value) = st) /\
  (forall h1 h2, bootstrap (h1 ++ (t, value) :: h2) = bootstrap (h1 ++ h2)) /\
  (forall st, step window threshold st (t, value) = ([], Ok st)) /\
  (forall l1 l2 st,
      stream_loop window threshold (l1 ++ (t, value) :: l2) st
      = stream_loop window threshold (l1 ++ l2) st).
Proof.
  intros Hneg. apply invalid_iff in Hneg.
  assert (Hb : forall st, bootstrap_sample st (t, value) = st)
    by (intros st; now apply bootstrap_sample_invalid).
  assert (Hs : forall st, step window threshold st (t, value) = ([], Ok st))
    by (intros st; now apply step_invalid).
  repeat split.
  - exact Hb.
  - intros h1 h2. now apply bootstrap_skip.
  - exact Hs.
  - intros l1 l2 st. now apply stream_loop_skip.
Qed.

Lemma invalid_sample_skipped_witness :
  negative_or_non_numeric (PyInt (-4)) /\
  step 3 default_threshold (bootstrap [(0%Z, PyInt 0); (1%Z, PyInt 1)])
    (2%Z, PyInt (-4))
  = ([], Ok (bootstrap [(0%Z, PyInt 0); (1%Z, PyInt 1)])).
Proof.
  assert (H : negative_or_non_numeric (PyInt (-4))) by (cbn; lia).
  split; [exact H |].
  exact (proj1 (proj2 (proj2 (invalid_sample_skipped 3 default_threshold 2
                                (PyInt (-4)) H))) _).
Defined.

(** The float [inf] is not a finite number, yet it passes the check: as a
    historical sample it enters the window and the running sum, as a live
    sample it gets a decision. *)
Lemma infinite_value_not_discarded :
  not_finite (Inf false) /\
  window_values (bootstrap_sample initial_state (0%Z, PyFloat (Inf false)))
  = [Inf false] /\
  rolling_sum (bootstrap_sample initial_state (0%Z, PyFloat (Inf false)))
  = Inf false /\
  fst (step 2 default_threshold initial_state (1%Z, PyFloat (Inf false)))
  = [(1%Z, PyFloat (Inf false), false)].
Proof.
  repeat split.
  rewrite (step_valid 2 default_threshold initial_state 1 _ (Inf false))
    by reflexivity.
  unfold decide, rolling_mean, rolling_std, rolling_variance, is_outlier.
  cbn [push initial_state rolling_sum rolling_squared_sum of_int add pow2 mul
       xorb div].
  rbool. cbn [bind xorb mul]. rbool. cbn [xorb sub neg add negb Bool.eqb mul].
  change (2 - 1)%Z with 1%Z. cbn [div]. rbool.
  cbn [bind math_sqrt div PyNum.abs gtb ltb fst]. reflexivity.
Qed.

Lemma Rabs_div_pos (a s : R) : 0 < s -> Rabs (a / s) = Rabs a / s.
Proof.
  intros Hs. unfold Rdiv. rewrite Rabs_mult, Rabs_inv.
  rewrite (Rabs_pos_eq s) by lra. reflexivity.
Qed.




(** C4 (amended).  For every accepted live sample, on finite accumulators,
    for which the variance expression is positive: the rolling mean is the
    sum including the new value divided by [window], the rolling standard
    deviation is the square root of the variance expression, the cycle
    yields [(timestamp, value, is_outlier)] with [is_outlier] true exactly
    when [|value - mean| / std > threshold], and all of this is computed on
    the state that still holds the oldest value: the eviction comes after. *)
Theorem decision_formula (window : Z) (threshold : R) (st : state)
    (t : timestamp) (value : pyobj) (v S Q : R) :
  (1 < window)%Z ->
  invalid value = false -> as_number value = Some (Fin v) ->
  rolling_sum st = Fin S -> rolling_squared_sum st = Fin Q ->
  let st1 := push st (Fin v) in
  let mean := (S + v) / IZR window in
  let variance :=
    (IZR window * (mean * mean) - 2 * mean * (S + v) + (Q + v * v))
    / IZR (window - 1) in
  0 < variance ->
  rolling_sum st1 = Fin (S + v) /\
  rolling_mean window st1 = Ok (Fin mean) /\
  rolling_std window st1 (Fin mean) = Ok (Fin (sqrt variance)) /\
  exists b : bool,
    step window threshold st (t, value) = ([(t, value, b)], evict st1) /\
    (b = true <-> Rabs (v - mean) / sqrt variance > threshold) /\
    exists st' oldest,
      evict st1 = Ok st' /\
      oldest :: window_values st' = window_values st ++ [Fin v].
Proof.
  intros Hw Hv Hr Hs Hq st1 mean variance.
  subst st1 mean.
  change variance with (variance_expr window (S + v) (Q + v * v)).
  clear variance. intros Hpos.
  assert (Hs1 : rolling_sum (push st (Fin v)) = Fin (S + v))
    by (cbn; now rewrite Hs).
  assert (Hq1 : rolling_squared_sum (push st (Fin v)) = Fin (Q + v * v))
    by (cbn; now rewrite Hq).
  pose proof (sqrt_lt_R0 _ Hpos) as Hsd.
  split; [exact Hs1 |]. split; [| split].
  - apply rolling_mean_fin; assumption.
  - unfold rolling_std.
    rewrite (rolling_variance_expr window _ _ _ Hw Hs1 Hq1). cbn [bind].
    unfold math_sqrt. now rewrite R_ltb_false by lra.
  - eexists. split; [| split].
    + rewrite (step_valid window threshold st t value (Fin v) Hv Hr).
      rewrite (decide_positive window threshold _ _ _ v Hw Hs1 Hq1 Hpos).
      reflexivity.
    + rewrite R_ltb_iff, Rabs_div_pos by exact Hsd.
      unfold Rgt. reflexivity.
    + destruct (evict_push st (Fin v)) as (st' & old & He & Hold & _). eauto.
Qed.

Lemma decision_formula_witness :
  exists b : bool,
    step 3 default_threshold
      (mkState (Fin 1) (Fin 1) [Fin 0; Fin 1] [Fin 0; Fin 1]) (2%Z, PyInt 2)
    = ([(2%Z, PyInt 2, b)],
       evict (push (mkState (Fin 1) (Fin 1) [Fin 0; Fin 1] [Fin 0; Fin 1])
                (Fin 2))).
Proof.
  destruct (decision_formula 3 default_threshold
              (mkState (Fin 1) (Fin 1) [Fin 0; Fin 1] [Fin 0; Fin 1])
              2 (PyInt 2) 2 1 1)
    as (_ & _ & _ & b & Hstep & _).
  - lia.
  - apply valid_int. lia.
  - reflexivity.
  - reflexivity.
  - reflexivity.
  - rewrite minus_IZR. lra.
  - exists b. exact Hstep.
Defined.

(** Three equal values with [window = 3]: the live sample is accepted and
    the cycle yields nothing. *)
Lemma decision_formula_counterexample :
  invalid (PyInt 2) = false /\
  step 3 default_threshold (bootstrap [(0%Z, PyInt 2); (1%Z, PyInt 2)])
    (2%Z, PyInt 2)
  = ([], Raise ZeroDivisionError).
Proof.
  assert (Hv : invalid (PyInt 2) = false) by (apply valid_int; lia).
  assert (Hb : holds (bootstrap [(0%Z, PyInt 2); (1%Z, PyInt 2)]) [2; 2]).
  { unfold bootstrap. cbn [fold_left].
    apply (bootstrap_sample_push _ [2]); [| exact Hv | reflexivity].
    apply (bootstrap_sample_push _ []); [| exact Hv | reflexivity].
    apply holds_initial. }
  split; [exact Hv |].
  apply (constant_window_raises 3 default_threshold _ [2; 2] 2 (PyInt 2) 2);
    solve [reflexivity | assumption | lia].
Qed.

(** C8 (amended).  For any [window] reals the constant-time expression of
    line 120 is their sample variance; hence at every decision point of a
    run over finite values at which the window holds exactly [window]
    values, the computed mean and variance are the mean and the sample
    variance of the values in the window. *)
Theorem variance_is_sample_variance (window : Z) (threshold : R)
    (hist live : list sample) (outs : list decision) (st : state) (r : R) :
  (1 < window)%Z ->
  (forall l : list R,
      Z.of_nat (length l) = window ->
      variance_expr window (Rsum l) (Rsumsq l) = sample_variance l) /\
  (Forall finite_sample hist -> Forall finite_sample live ->
   stream_loop window threshold live (bootstrap hist) = (outs, Ok st) ->
   Z.of_nat (length (window_values (push st (Fin r)))) = window ->
   exists l : list R,
     window_values (push st (Fin r)) = map Fin l /\
     rolling_mean window (push st (Fin r)) = Ok (Fin (mean_of l)) /\
     rolling_variance window (push st (Fin r)) (Fin (mean_of l))
     = Ok (Fin (sample_variance l))).
Proof.
  intros Hw. split.
  - intros l Hlen. now apply variance_expr_sample.
  - intros Hh Hl Hrun Hlen.
    destruct (run_holds _ _ _ _ _ _ Hh Hl Hrun) as [l H].
    pose proof (holds_push st l r H) as Hp.
    destruct Hp as (Hwv & Hwsv & Hs & Hq).
    rewrite Hwv, length_map in Hlen.
    assert (Hn : INR (length (l ++ [r])) = IZR window)
      by (rewrite INR_IZR_INZ; now f_equal).
    exists (l ++ [r]). split; [exact Hwv |].
    unfold mean_of. rewrite Hn. split.
    + now apply rolling_mean_fin.
    + rewrite (rolling_variance_expr window _ _ _ Hw Hs Hq).
      now rewrite variance_expr_sample.
Qed.

Lemma variance_is_sample_variance_witness :
  (1 < 3)%Z /\
  exists l : list R,
    window_values (push (bootstrap [(0%Z, PyInt 0); (1%Z, PyInt 1)]) (Fin 2))
    = map Fin l /\
    rolling_mean 3 (push (bootstrap [(0%Z, PyInt 0); (1%Z, PyInt 1)]) (Fin 2))
    = Ok (Fin (mean_of l)) /\
    rolling_variance 3
      (push (bootstrap [(0%Z, PyInt 0); (1%Z, PyInt 1)]) (Fin 2))
      (Fin (mean_of l))
    = Ok (Fin (sample_variance l)).
Proof.
  split; [lia |].
  refine (proj2 (variance_is_sample_variance 3 default_threshold
                   [(0%Z, PyInt 0); (1%Z, PyInt 1)] [] []
                   (bootstrap [(0%Z, PyInt 0); (1%Z, PyInt 1)]) 2 _)
            _ _ eq_refl _).
  - lia.
  - repeat constructor.
  - constructor.
  - destruct run_0_1_2 as (Hb & _).
    cbn [push window_values]. rewrite length_app, (holds_length _ _ Hb).
    reflexivity.
Defined.

(** With [window = 3] and a history of 4 and -1, the second sample is
    discarded; at the decision for the live value 2 the window holds 4 and
    2, whose sample variance is 2, and the computed variance is 4. *)
Lemma variance_counterexample :
  window_values (push (bootstrap [(0%Z, PyInt 4); (1%Z, PyInt (-1))]) (Fin 2))
  = map Fin [4; 2] /\
  rolling_mean 3 (push (bootstrap [(0%Z, PyInt 4); (1%Z, PyInt (-1))]) (Fin 2))
  = Ok (Fin 2) /\
  rolling_variance 3
    (push (bootstrap [(0%Z, PyInt 4); (1%Z, PyInt (-1))]) (Fin 2)) (Fin 2)
  = Ok (Fin 4) /\
  sample_variance [4; 2] = 2 /\
  Fin 4 <> Fin (sample_variance [4; 2]).
Proof.
  assert (Hneg : invalid (PyInt (-1)) = true) by (apply invalid_iff; cbn; lia).
  assert (Hb : holds (bootstrap [(0%Z, PyInt 4); (1%Z, PyInt (-1))]) [4]).
  { unfold bootstrap. cbn [fold_left].
    rewrite (bootstrap_sample_invalid _ 1 _ Hneg).
    apply (bootstrap_sample_push _ []);
      [apply holds_initial | apply valid_int; lia | reflexivity]. }
  destruct (holds_push _ _ 2 Hb) as (Hwv & _ & Hs & Hq). cbn [app] in *.
  assert (Hsv : sample_variance [4; 2] = 2).
  { unfold sample_variance, mean_of, Rsum. cbn. field. }
  split; [exact Hwv |]. split; [| split; [| split; [exact Hsv |]]].
  - rewrite (rolling_mean_fin 3 _ _ ltac:(lia) Hs). do 2 f_equal.
    unfold Rsum. cbn. field.
  - rewrite (rolling_variance_fin 3 _ _ _ 2 ltac:(lia) Hs Hq). do 2 f_equal.
    unfold Rsumsq, Rsum. cbn. field.
  - rewrite Hsv. intros H. inversion H. lra.
Qed.

(** What the bootstrap keeps: every sample that passes the check. *)
Lemma bootstrap_from_count (hist : list sample) :
  forall st : state,
    (length (window_values (fold_left bootstrap_sample hist st))
     + length (filter (fun smp => invalid (snd smp)) hist)
     = length (window_values st) + length hist)%nat.
Proof.
  induction hist as [| [t value] rest IH]; intros st; cbn [fold_left filter length snd].
  - lia.
  - destruct (invalid value) eqn:Hv.
    + rewrite (bootstrap_sample_invalid st t value Hv). cbn [length].
      specialize (IH st). lia.
    + destruct (valid_as_number value Hv) as [x Hx].
      rewrite (bootstrap_sample_valid st t value x Hv Hx).
      specialize (IH (push st x)). cbn [push window_values] in IH.
      rewrite length_app in IH. cbn [length] in IH. lia.
Qed.

Lemma bootstrap_count (hist : list sample) :
  (length (window_values (bootstrap hist))
   + length (filter (fun smp => invalid (snd smp)) hist)
   = length hist)%nat.
Proof. unfold bootstrap. now rewrite bootstrap_from_count. Qed.

(** The run over one more live sample is the run so far followed by one
    cycle on the state it reached. *)
Lemma stream_loop_snoc (window : Z) (threshold : R) (live : list sample) :
  forall (st0 st : state) (outs : list decision) (smp : sample),
    stream_loop window threshold live st0 = (outs, Ok st) ->
    stream_loop window threshold (live ++ [smp]) st0
    = (outs ++ fst (step window threshold st smp),
       snd (step window threshold st smp)).
Proof.
  induction live as [| s1 rest IH]; intros st0 st outs smp; cbn [app stream_loop].
  - intros H. inversion H; subst. cbn [app].
    destruct (step window threshold st smp) as [out [st' | e]]; cbn [fst snd];
      [now rewrite app_nil_r | reflexivity].
  - destruct (step window threshold st0 s1) as [out [st1 | e]]; [| discriminate].
    destruct (stream_loop window threshold rest st1) as [outs1 fin] eqn:Hrest.
    intros H. inversion H; subst.
    rewrite (IH st1 st outs1 smp Hrest). now rewrite app_assoc.
Qed.

(** C10 (amended).  In a run over finite values the divisors are [window]
    and [window - 1] whatever the window holds: when [k] of the
    [window - 1] historical samples are discarded, the cycle of the loop for
    every later accepted sample decides on [window - k] values; its mean and
    variance are the sum and the variance expression of those values
    divided by [window] and [window - 1]; what the cycle yields or raises
    is fixed by these alone, with no check of the window's length; and the
    run continues with exactly that cycle. *)
Theorem divisors_are_constant (window : Z) (threshold : R)
    (hist live : list sample) (outs : list decision) (st : state)
    (k : nat) (t : timestamp) (value : pyobj) (r : R) :
  (1 < window)%Z ->
  Forall finite_sample hist -> Forall finite_sample live ->
  Z.of_nat (length hist) = (window - 1)%Z ->
  length (filter (fun smp => invalid (snd smp)) hist) = k ->
  stream_loop window threshold live (bootstrap hist) = (outs, Ok st) ->
  invalid value = false -> as_number value = Some (Fin r) ->
  exists l : list R,
    holds (push st (Fin r)) l /\
    Z.of_nat (length l) = (window - Z.of_nat k)%Z /\
    rolling_mean window (push st (Fin r)) = Ok (Fin (Rsum l / IZR window)) /\
    rolling_variance window (push st (Fin r)) (Fin (Rsum l / IZR window))
    = Ok (Fin ((IZR window * (Rsum l / IZR window * (Rsum l / IZR window))
                - 2 * (Rsum l / IZR window) * Rsum l + Rsumsq l)
               / IZR (window - 1))) /\
    step window threshold st (t, value)
    = (if R_ltb (variance_expr window (Rsum l) (Rsumsq l)) 0
       then ([], Raise ValueError)
       else if R_eqb (sqrt (variance_expr window (Rsum l) (Rsumsq l))) 0
            then ([], Raise ZeroDivisionError)
            else ([(t, value,
                    R_ltb threshold
                      (Rabs ((r - Rsum l / IZR window)
                             / sqrt (variance_expr window (Rsum l)
                                       (Rsumsq l)))))],
                  evict (push st (Fin r)))) /\
    stream_loop window threshold (live ++ [(t, value)]) (bootstrap hist)
    = (outs ++ fst (step window threshold st (t, value)),
       snd (step window threshold st (t, value))).
Proof.
  intros Hw Hh Hl Hlen Hk Hrun Hv Hr.
  destruct (run_holds _ _ _ _ _ _ Hh Hl Hrun) as [l H].
  pose proof (holds_push st l r H) as Hp.
  exists (l ++ [r]). split; [exact Hp |].
  destruct Hp as (Hwv & Hwsv & Hs & Hq).
  pose proof (bootstrap_count hist) as Hc.
  pose proof (stream_loop_length _ _ _ _ _ _ Hrun) as Hsl.
  pose proof (holds_length _ _ H) as Hhl.
  split; [| split; [| split; [| split]]].
  - rewrite length_app. cbn [length]. lia.
  - now apply rolling_mean_fin.
  - now apply rolling_variance_fin.
  - rewrite (step_valid window threshold st t value (Fin r) Hv Hr).
    rewrite (decide_fin window threshold _ _ _ r Hw Hs Hq).
    destruct (R_ltb (variance_expr window (Rsum (l ++ [r])) (Rsumsq (l ++ [r]))) 0);
      [reflexivity |].
    destruct (R_eqb (sqrt (variance_expr window (Rsum (l ++ [r]))
                             (Rsumsq (l ++ [r])))) 0); reflexivity.
  - now apply stream_loop_snoc.
Qed.

Lemma divisors_are_constant_witness :
  exists l : list R,
    holds (push (bootstrap [(0%Z, PyInt 4); (1%Z, PyInt (-1))]) (Fin 2)) l /\
    Z.of_nat (length l) = (3 - Z.of_nat 1)%Z /\
    rolling_mean 3 (push (bootstrap [(0%Z, PyInt 4); (1%Z, PyInt (-1))]) (Fin 2))
    = Ok (Fin (Rsum l / IZR 3)) /\
    stream_loop 3 default_threshold ([] ++ [(2%Z, PyInt 2)])
      (bootstrap [(0%Z, PyInt 4); (1%Z, PyInt (-1))])
    = ([] ++ fst (step 3 default_threshold
                    (bootstrap [(0%Z, PyInt 4); (1%Z, PyInt (-1))])
                    (2%Z, PyInt 2)),
       snd (step 3 default_threshold
              (bootstrap [(0%Z, PyInt 4); (1%Z, PyInt (-1))]) (2%Z, PyInt 2))).
Proof.
  destruct (divisors_are_constant 3 default_threshold
              [(0%Z, PyInt 4); (1%Z, PyInt (-1))] [] []
              (bootstrap [(0%Z, PyInt 4); (1%Z, PyInt (-1))]) 1 2 (PyInt 2) 2)
    as (l & Hl & Hlen & Hmean & _ & _ & Hrun).
  - lia.
  - repeat constructor.
  - constructor.
  - reflexivity.
  - cbn [filter snd].
    rewrite (valid_int 4) by lia.
    assert (Hneg : invalid (PyInt (-1)) = true) by (apply invalid_iff; cbn; lia).
    rewrite Hneg. reflexivity.
  - reflexivity.
  - apply valid_int. lia.
  - reflexivity.
  - exists l. split; [exact Hl | split; [exact Hlen | split; [exact Hmean | exact Hrun]]].
Defined.

(** With [window = 3] and the history [inf], -1: one sample is discarded,
    [inf] is admitted.  After the cycle for the live value 1 has evicted
    [inf], the decision for the live value 2 is taken on the two values 1
    and 2 with [rolling_sum = NaN]: the accumulator does not cover them, and
    the mean is [NaN]. *)
Lemma divisors_counterexample :
  Z.of_nat (length [(0%Z, PyFloat (Inf false)); (1%Z, PyInt (-1))]) = (3 - 1)%Z /\
  length (filter (fun smp : sample => invalid (snd smp))
            [(0%Z, PyFloat (Inf false)); (1%Z, PyInt (-1))]) = 1%nat /\
  exists st,
    stream_loop 3 default_threshold [(2%Z, PyInt 1)]
      (bootstrap [(0%Z, PyFloat (Inf false)); (1%Z, PyInt (-1))])
    = ([(2%Z, PyInt 1, false)], Ok st) /\
    invalid (PyInt 2) = false /\
    window_values (push st (Fin 2)) = [Fin 1; Fin 2] /\
    rolling_sum (push st (Fin 2)) = NaN /\
    ~ accumulators_exact (push st (Fin 2)) /\
    rolling_mean 3 (push st (Fin 2)) = Ok NaN.
Proof.
  assert (Hneg : invalid (PyInt (-1)) = true) by (apply invalid_iff; cbn; lia).
  split; [reflexivity |]. split.
  { cbn [filter snd]. rewrite Hneg.
    change (invalid (PyFloat (Inf false))) with false. reflexivity. }
  assert (Hb : bootstrap [(0%Z, PyFloat (Inf false)); (1%Z, PyInt (-1))]
               = push initial_state (Inf false)).
  { unfold bootstrap. cbn [fold_left].
    rewrite (bootstrap_sample_invalid _ 1 _ Hneg). reflexivity. }
  eexists. split.
  - rewrite Hb. cbn [stream_loop].
    rewrite (step_after_inf 3 default_threshold 2 1) by lia. reflexivity.
  - split; [apply valid_int; lia |].
    split; [reflexivity |]. split; [reflexivity |]. split.
    + intros [H _]. discriminate H.
    + unfold rolling_mean, of_int.
      cbn [push rolling_sum add div]. rbool. reflexivity.
Qed.

(** ** The bootstrap through the repository's lookup *)

(** A run before any live item is pulled. *)
Lemma process_bootstrap
    (get_historical_data : R -> R -> result (list sample))
    (generate_data_stream : Z -> R -> list sample)
    (now : R) (window : Z) (threshold : R) (timestamp_increment : Z)
    (stream_delay : R) (hist : list sample) :
  (1 < window)%Z ->
  get_historical_data (now - IZR ((window - 1) * timestamp_increment)) now
  = Ok hist ->
  generate_data_stream timestamp_increment stream_delay = [] ->
  process_z_score_outliers get_historical_data generate_data_stream now
    window threshold timestamp_increment stream_delay
  = mkOutcome [(now - IZR ((window - 1) * timestamp_increment), now)] []
      (Ok (bootstrap hist)).
Proof.
  intros Hw Hget Hgen. unfold process_z_score_outliers.
  destruct (Z.leb_spec window 1) as [H | _]; [lia |].
  now rewrite Hget, Hgen.
Qed.

Lemma lookup_all_valid (energy : Z -> num) (hist : list sample) :
  (forall t, invalid (PyFloat (energy t)) = false) ->
  Forall (fun smp => exists t, snd smp = PyFloat (energy t)) hist ->
  Forall (fun smp => invalid (snd smp) = false) hist.
Proof.
  intros Hval Hall. eapply Forall_impl; [| exact Hall].
  intros smp [t Ht]. rewrite Ht. apply Hval.
Qed.

(** C6.  Two runs through [get_historical_energy_data] in which every
    returned sample is valid and the initial window does not hold
    [window - 1 = 44] entries.  With hourly data
    ([timestamp_increment = 3600]) the lookup is called once, with the range
    [[now - 44 * 3600, now]], but steps through it by its own default of one
    day and returns 2 samples.  With the default increment and [now] on a
    day boundary it returns both ends of the range, 45 samples. *)
Theorem bootstrap_count_differs (energy : Z -> num) :
  (forall t, invalid (PyFloat (energy t)) = false) ->
  let lookup := EnergyData.historical_lookup energy in
  let hourly :=
    process_z_score_outliers lookup (fun _ _ => []) 1730000000
      default_window default_threshold 3600 default_stream_delay in
  let aligned :=
    process_z_score_outliers lookup (fun _ _ => []) 1728000000
      default_window default_threshold default_timestamp_increment
      default_stream_delay in
  lookups hourly = [(1730000000 - IZR ((45 - 1) * 3600), 1730000000)] /\
  (exists st, final hourly = Ok st /\ length (window_values st) = 2%nat) /\
  lookups aligned = [(1728000000 - IZR ((45 - 1) * 86400), 1728000000)] /\
  (exists st, final aligned = Ok st /\ length (window_values st) = 45%nat).
Proof.
  intros Hval lookup hourly aligned.
  (* hourly data *)
  destruct (lookup_ok energy (1730000000 - IZR ((45 - 1) * 3600)) 1730000000
              86400 ltac:(lia)) as (h1 & Hok1 & Hlen1 & Hall1).
  assert (Hc1 : ceil ((1730000000 - IZR ((45 - 1) * 3600)) / IZR 86400)
                = 20022%Z).
  { apply ceil_unique. change ((45 - 1) * 3600)%Z with 158400%Z. lra. }
  rewrite Hc1 in Hlen1.
  assert (Hf1 : floor ((1730000000 - IZR (20022 * 86400)) / IZR 86400) = 1%Z).
  { apply floor_unique. change (20022 * 86400)%Z with 1729900800%Z. lra. }
  rewrite Hf1 in Hlen1. change (Z.to_nat (1 + 1)) with 2%nat in Hlen1.
  assert (Hrun1 : hourly
                  = mkOutcome [(1730000000 - IZR ((45 - 1) * 3600), 1730000000)]
                      [] (Ok (bootstrap h1))).
  { apply process_bootstrap; [reflexivity | exact Hok1 | reflexivity]. }
  (* now on a day boundary *)
  destruct (lookup_window_aligned energy 1728000000 45 86400 20000
              ltac:(lia) ltac:(lia) ltac:(lra)) as (h2 & Hok2 & Hlen2).
  destruct (lookup_ok energy (1728000000 - IZR ((45 - 1) * 86400)) 1728000000
              86400 ltac:(lia)) as (h2' & Hok2' & _ & Hall2).
  rewrite Hok2 in Hok2'. inversion Hok2'; subst h2'.
  assert (Hrun2 : aligned
                  = mkOutcome [(1728000000 - IZR ((45 - 1) * 86400), 1728000000)]
                      [] (Ok (bootstrap h2))).
  { apply process_bootstrap; [reflexivity | exact Hok2 | reflexivity]. }
  rewrite Hrun1, Hrun2. cbn [lookups final].
  split; [reflexivity |]. split; [| split; [reflexivity |]].
  - exists (bootstrap h1). split; [reflexivity |].
    rewrite bootstrap_length by (eapply lookup_all_valid; eassumption).
    exact Hlen1.
  - exists (bootstrap h2). split; [reflexivity |].
    rewrite bootstrap_length by (eapply lookup_all_valid; eassumption).
    lia.
Qed.

Lemma bootstrap_count_differs_witness :
  let lookup := EnergyData.historical_lookup (fun _ => Fin 25000) in
  exists st,
    final (process_z_score_outliers lookup (fun _ _ => []) 1730000000
             default_window default_threshold 3600 default_stream_delay)
    = Ok st /\
    length (window_values st) = 2%nat.
Proof.
  refine (proj1 (proj2 (bootstrap_count_differs (fun _ => Fin 25000) _))).
  intros t. cbn. apply R_ltb_false. lra.
Defined.

(** ** Further properties of the engine *)

(** What one cycle yields, flags aside. *)
Lemma step_unflagged (window : Z) (threshold : R) (st : state) (smp : sample) :
  (invalid (snd smp) = true /\
   step window threshold st smp = ([], Ok st)) \/
  (invalid (snd smp) = false /\
   ((exists e, step window threshold st smp = ([], Raise e)) \/
    (exists b st',
        step window threshold st smp = ([(fst smp, snd smp, b)], Ok st')))).
Proof.
  destruct smp as [t value]. cbn [fst snd].
  destruct (invalid value) eqn:Hv.
  - left. split; [reflexivity |]. now apply step_invalid.
  - right. split; [reflexivity |].
    destruct (valid_as_number value Hv) as [x Hx].
    rewrite (step_valid window threshold st t value x Hv Hx).
    destruct (decide window threshold (push st x) x) as [b | e].
    + right. destruct (evict_push st x) as (st' & old & He & _).
      exists b, st'. now rewrite He.
    + left. eauto.
Qed.

(** X2.  The decisions come out one for one and in order: stripped of their
    flags, the decisions yielded so far are an initial segment of the live
    samples that pass the check, and all of them when the loop has not
    raised. *)
Theorem decisions_follow_accepted (window : Z) (threshold : R)
    (live : list sample) :
  forall (st : state) (outs : list decision) (fin : result state),
    stream_loop window threshold live st = (outs, fin) ->
    prefix_of (map unflagged outs) (accepted live) /\
    (forall st', fin = Ok st' -> map unflagged outs = accepted live).
Proof.
  induction live as [| smp rest IH]; intros st outs fin; cbn [stream_loop].
  - intros H. inversion H; subst. split; [exists []; reflexivity | reflexivity].
  - unfold accepted. cbn [filter]. fold (accepted rest).
    destruct (step_unflagged window threshold st smp)
      as [[Hv Hs] | [Hv [[e Hs] | (b & st1 & Hs)]]]; rewrite Hs, Hv; cbn [negb].
    + destruct (stream_loop window threshold rest st) as [outs1 fin1] eqn:Hr.
      intros H. inversion H; subst. cbn [app]. exact (IH _ _ _ Hr).
    + intros H. inversion H; subst. split.
      * exists (smp :: accepted rest). reflexivity.
      * intros st' Hst. discriminate.
    + destruct (stream_loop window threshold rest st1) as [outs1 fin1] eqn:Hr.
      intros H. inversion H; subst. cbn [app map unflagged fst].
      destruct (IH _ _ _ Hr) as [[tail Hp] Hall]. destruct smp as [t value].
      cbn [fst snd]. split.
      * exists tail. cbn [app]. now rewrite Hp.
      * intros st' Hst. now rewrite (Hall st' Hst).
Qed.

Lemma decisions_follow_accepted_witness :
  exists st,
    stream_loop 3 default_threshold [(2%Z, PyInt 2)]
      (bootstrap [(0%Z, PyInt 0); (1%Z, PyInt 1)])
    = ([(2%Z, PyInt 2, false)], Ok st) /\
    map unflagged [(2%Z, PyInt 2, false)] = accepted [(2%Z, PyInt 2)].
Proof.
  destruct run_0_1_2 as (_ & st & Hrun & _).
  exists st. split; [exact Hrun |].
  exact (proj2 (decisions_follow_accepted 3 default_threshold _ _ _ _ Hrun)
           st eq_refl).
Defined.

(** Lines 119-121 compute a score that does not depend on the threshold,
    and compare its absolute value with the threshold last. *)
Lemma decide_score (window : Z) (st : state) (x : num) :
  exists score : result num,
    forall threshold,
      decide window threshold st x
      = (z <- score ;; Ok (gtb (PyNum.abs z) (Fin threshold))).
Proof.
  exists (mean <- rolling_mean window st ;;
          std <- rolling_std window st mean ;;
          div (sub x mean) std).
  intros threshold. unfold decide, is_outlier.
  destruct (rolling_mean window st) as [mean |]; cbn [bind]; [| reflexivity].
  destruct (rolling_std window st mean) as [std |]; cbn [bind]; reflexivity.
Qed.

Lemma flag_monotone (z : num) (t1 t2 : R) :
  t2 <= t1 ->
  gtb (PyNum.abs z) (Fin t1) = true -> gtb (PyNum.abs z) (Fin t2) = true.
Proof.
  intros Hle. destruct z as [a | s |]; cbn; try trivial.
  rewrite !R_ltb_iff. lra.
Qed.

(** One cycle under two thresholds: same exception or same state, same
    sample yielded, and a flag raised under the higher threshold is raised
    under the lower one. *)
Lemma step_two_thresholds (window : Z) (t1 t2 : R) (st : state) (smp : sample) :
  t2 <= t1 ->
  snd (step window t1 st smp) = snd (step window t2 st smp) /\
  Forall2 (fun d1 d2 => fst d1 = fst d2 /\ (snd d1 = true -> snd d2 = true))
    (fst (step window t1 st smp)) (fst (step window t2 st smp)).
Proof.
  intros Hle. destruct smp as [t value].
  destruct (invalid value) eqn:Hv.
  - rewrite !step_invalid by assumption. cbn. split; [reflexivity | constructor].
  - destruct (valid_as_number value Hv) as [x Hx].
    rewrite !(step_valid window _ st t value x Hv Hx).
    destruct (decide_score window (push st x) x) as [score Hscore].
    rewrite !Hscore.
    destruct score as [z | e]; cbn [bind fst snd].
    + split; [reflexivity |]. constructor; [| constructor]. cbn [fst snd].
      split; [reflexivity |]. now apply flag_monotone.
    + split; [reflexivity | constructor].
Qed.

(** X3.  The threshold decides the flags and nothing else: under any two
    thresholds a run over the same samples ends in the same state or the
    same exception and yields decisions for the same samples, and every
    sample flagged under the higher threshold is flagged under the lower
    one. *)
Theorem threshold_only_flags (window : Z) (t1 t2 : R) (live : list sample) :
  t2 <= t1 ->
  forall st : state,
    snd (stream_loop window t1 live st) = snd (stream_loop window t2 live st) /\
    Forall2 (fun d1 d2 => fst d1 = fst d2 /\ (snd d1 = true -> snd d2 = true))
      (fst (stream_loop window t1 live st))
      (fst (stream_loop window t2 live st)).
Proof.
  intros Hle. induction live as [| smp rest IH]; intros st; cbn [stream_loop].
  - cbn. split; [reflexivity | constructor].
  - destruct (step_two_thresholds window t1 t2 st smp Hle) as [Hs Hf].
    destruct (step window t1 st smp) as [out1 r1].
    destruct (step window t2 st smp) as [out2 r2].
    cbn [fst snd] in Hs, Hf. subst r2.
    destruct r1 as [st1 | e]; cbn [fst snd].
    + destruct (IH st1) as [IHs IHf].
      destruct (stream_loop window t1 rest st1) as [outs1 fin1].
      destruct (stream_loop window t2 rest st1) as [outs2 fin2].
      cbn [fst snd] in *. split; [exact IHs |].
      apply Forall2_app; assumption.
    + split; [reflexivity | exact Hf].
Qed.

Lemma threshold_only_flags_witness :
  1 <= default_threshold /\
  snd (stream_loop 3 default_threshold [(2%Z, PyInt 2)]
         (bootstrap [(0%Z, PyInt 0); (1%Z, PyInt 1)]))
  = snd (stream_loop 3 1 [(2%Z, PyInt 2)]
           (bootstrap [(0%Z, PyInt 0); (1%Z, PyInt 1)])).
Proof.
  assert (H : 1 <= default_threshold) by (unfold default_threshold; lra).
  split; [exact H |].
  exact (proj1 (threshold_only_flags 3 default_threshold 1 _ H _)).
Defined.

(** ** The window slides over the accepted values *)

Lemma accepted_reals_invalid (smp : sample) (rest : list sample) :
  invalid (snd smp) = true ->
  accepted_reals (smp :: rest) = accepted_reals rest.
Proof. intros H. unfold accepted_reals, accepted. cbn [filter]. now rewrite H. Qed.

Lemma accepted_reals_valid (smp : sample) (rest : list sample) (r : R) :
  invalid (snd smp) = false -> as_number (snd smp) = Some (Fin r) ->
  accepted_reals (smp :: rest) = r :: accepted_reals rest.
Proof.
  intros H Hr. unfold accepted_reals, accepted. cbn [filter]. rewrite H.
  cbn [negb map]. unfold real_of at 1. now rewrite Hr.
Qed.

Lemma fold_bootstrap_accepted (hist : list sample) :
  forall (st : state) (l : list R),
    holds st l -> Forall finite_sample hist ->
    holds (fold_left bootstrap_sample hist st) (l ++ accepted_reals hist).
Proof.
  induction hist as [| [t value] rest IH]; intros st l Hh Hall; cbn [fold_left].
  - unfold accepted_reals, accepted. cbn. now rewrite app_nil_r.
  - inversion Hall as [| ? ? Hf Hrest]; subst. unfold finite_sample in Hf.
    cbn [snd] in Hf. destruct (invalid value) eqn:Hv.
    + rewrite (bootstrap_sample_invalid st t value Hv).
      rewrite accepted_reals_invalid by exact Hv. now apply IH.
    + destruct (valid_finite value Hf Hv) as (r & Hr & _).
      rewrite (accepted_reals_valid (t, value) rest r Hv Hr).
      replace (l ++ r :: accepted_reals rest)
        with ((l ++ [r]) ++ accepted_reals rest)
        by (rewrite <- app_assoc; reflexivity).
      apply IH; [| exact Hrest].
      now apply bootstrap_sample_push.
Qed.

Lemma bootstrap_accepted (hist : list sample) :
  Forall finite_sample hist -> holds (bootstrap hist) (accepted_reals hist).
Proof.
  intros H. exact (fold_bootstrap_accepted hist initial_state [] holds_initial H).
Qed.

(** A cycle that does not raise drops the oldest value and keeps the new
    one. *)
Lemma step_slides (window : Z) (threshold : R) (st st' : state) (l : list R)
    (t : timestamp) (value : pyobj) (r : R) (out : list decision) :
  holds st l -> invalid value = false -> as_number value = Some (Fin r) ->
  step window threshold st (t, value) = (out, Ok st') ->
  holds st' (tl (l ++ [r])).
Proof.
  intros Hh Hv Hr. rewrite (step_valid window threshold st t value (Fin r) Hv Hr).
  destruct (decide window threshold (push st (Fin r)) (Fin r)); [| discriminate].
  intros H. inversion H as [[Ho He]].
  pose proof (holds_push st l r Hh) as Hp.
  destruct (l ++ [r]) as [| x l'] eqn:Hl; [destruct l; discriminate |].
  destruct (holds_evict _ x l' Hp) as (st2 & He2 & H2).
  rewrite He2 in He. inversion He; subst. exact H2.
Qed.

Lemma stream_loop_slides (window : Z) (threshold : R) (live : list sample) :
  forall (st st' : state) (l : list R) (outs : list decision),
    holds st l -> Forall finite_sample live ->
    stream_loop window threshold live st = (outs, Ok st') ->
    holds st' (skipn (length (accepted_reals live)) (l ++ accepted_reals live)).
Proof.
  induction live as [| [t value] rest IH]; intros st st' l outs Hh Hall;
    cbn [stream_loop].
  - intros H. inversion H; subst. unfold accepted_reals, accepted. cbn.
    now rewrite app_nil_r.
  - inversion Hall as [| ? ? Hf Hrest]; subst. unfold finite_sample in Hf.
    cbn [snd] in Hf.
    destruct (step window threshold st (t, value)) as [out [st1 | e]] eqn:Hstep;
      [| discriminate].
    destruct (stream_loop window threshold rest st1) as [outs1 fin] eqn:Hloop.
    intros H. inversion H; subst.
    destruct (invalid value) eqn:Hv.
    + rewrite (step_invalid window threshold st t value Hv) in Hstep.
      inversion Hstep; subst.
      rewrite accepted_reals_invalid by exact Hv. eapply IH; eassumption.
    + destruct (valid_finite value Hf Hv) as (r & Hr & _).
      rewrite (accepted_reals_valid (t, value) rest r Hv Hr).
      pose proof (step_slides _ _ _ _ _ _ _ _ _ Hh Hv Hr Hstep) as H1.
      pose proof (IH _ _ _ _ H1 Hrest Hloop) as H2.
      replace (l ++ r :: accepted_reals rest)
        with ((l ++ [r]) ++ accepted_reals rest)
        by (rewrite <- app_assoc; reflexivity).
      destruct (l ++ [r]) as [| x l'] eqn:Hl; [destruct l; discriminate |].
      exact H2.
Qed.

(** X4.  The window slides: after a run over finite values that has not
    raised, the window holds, oldest first, the accepted historical values
    followed by the accepted live values with as many dropped from the front
    as live values were accepted; the accumulators are their sum and sum of
    squares. *)
Theorem window_holds_most_recent (window : Z) (threshold : R)
    (hist live : list sample) (outs : list decision) (st : state) :
  Forall finite_sample hist -> Forall finite_sample live ->
  stream_loop window threshold live (bootstrap hist) = (outs, Ok st) ->
  holds st (skipn (length (accepted_reals live))
              (accepted_reals hist ++ accepted_reals live)) /\
  length (window_values st) = length (accepted_reals hist).
Proof.
  intros Hh Hl Hrun.
  pose proof (stream_loop_slides _ _ _ _ _ _ _ (bootstrap_accepted hist Hh) Hl Hrun)
    as H.
  split; [exact H |].
  rewrite (holds_length _ _ H), length_skipn, length_app. lia.
Qed.

Lemma window_holds_most_recent_witness :
  exists st,
    stream_loop 3 default_threshold [(2%Z, PyInt 2)]
      (bootstrap [(0%Z, PyInt 0); (1%Z, PyInt 1)])
    = ([(2%Z, PyInt 2, false)], Ok st) /\
    holds st
      (skipn (length (accepted_reals [(2%Z, PyInt 2)]))
         (accepted_reals [(0%Z, PyInt 0); (1%Z, PyInt 1)]
          ++ accepted_reals [(2%Z, PyInt 2)])).
Proof.
  destruct run_0_1_2 as (_ & st & Hrun & _).
  exists st. split; [exact Hrun |].
  refine (proj1 (window_holds_most_recent 3 default_threshold
                   [(0%Z, PyInt 0); (1%Z, PyInt 1)] [(2%Z, PyInt 2)]
                   _ st _ _ Hrun));
    repeat constructor.
Defined.

(** ** The variance expression is never negative on a window that is not
    over-full *)

Lemma centred_squares_nonneg (m : R) (l : list R) :
  0 <= Rsum (map (fun x => (x - m) * (x - m)) l).
Proof.
  induction l as [| x l IH].
  - unfold Rsum. cbn. lra.
  - cbn [map]. rewrite Rsum_cons. pose proof (Rle_0_sqr (x - m)) as Hx.
    unfold Rsqr in Hx. lra.
Qed.

Lemma Rsumsq_nonneg (l : list R) : 0 <= Rsumsq l.
Proof.
  induction l as [| x l IH].
  - unfold Rsumsq, Rsum. cbn. lra.
  - rewrite Rsumsq_cons. pose proof (Rle_0_sqr x) as Hx. unfold Rsqr in Hx. lra.
Qed.

(** The square of a sum is at most the count times the sum of squares. *)
Lemma square_of_sum (l : list R) :
  Rsum l * Rsum l <= INR (length l) * Rsumsq l.
Proof.
  destruct l as [| x l'] eqn:Hl.
  - unfold Rsumsq, Rsum. cbn. lra.
  - rewrite <- Hl.
    assert (Hn : 0 < INR (length l)).
    { subst l. apply lt_0_INR. cbn. lia. }
    pose proof (centred_squares_nonneg (Rsum l / INR (length l)) l) as H.
    rewrite centred_squares in H.
    replace (Rsumsq l - 2 * (Rsum l / INR (length l)) * Rsum l
             + INR (length l)
               * (Rsum l / INR (length l) * (Rsum l / INR (length l))))
      with (Rsumsq l - Rsum l * Rsum l / INR (length l)) in H
      by (field; lra).
    assert (Hm : Rsum l * Rsum l / INR (length l) * INR (length l)
                 = Rsum l * Rsum l) by (field; lra).
    assert (Hle : Rsum l * Rsum l / INR (length l) <= Rsumsq l) by lra.
    apply (Rmult_le_compat_r (INR (length l))) in Hle; [| lra].
    rewrite Hm in Hle. lra.
Qed.

(** The variance expression with the common factor taken out. *)
Lemma variance_expr_factored (window : Z) (S Q : R) :
  (1 < window)%Z ->
  variance_expr window S Q = (Q - S * S / IZR window) / (IZR window - 1).
Proof.
  intros Hw. assert (Hpos : 1 < IZR window) by (apply IZR_lt in Hw; exact Hw).
  unfold variance_expr. rewrite minus_IZR. field. lra.
Qed.

Lemma variance_expr_nonneg (window : Z) (l : list R) :
  (1 < window)%Z -> (Z.of_nat (length l) <= window)%Z ->
  0 <= variance_expr window (Rsum l) (Rsumsq l).
Proof.
  intros Hw Hlen.
  assert (Hpos : 1 < IZR window) by (apply IZR_lt in Hw; exact Hw).
  assert (Hk : INR (length l) <= IZR window)
    by (rewrite INR_IZR_INZ; now apply IZR_le).
  rewrite (variance_expr_factored window _ _ Hw).
  pose proof (square_of_sum l) as Hcs.
  pose proof (Rsumsq_nonneg l) as Hq.
  assert (Hwq : Rsum l * Rsum l <= IZR window * Rsumsq l).
  { apply Rle_trans with (INR (length l) * Rsumsq l); [exact Hcs |].
    apply Rmult_le_compat_r; assumption. }
  assert (Hdiv : Rsum l * Rsum l / IZR window <= Rsumsq l).
  { apply (Rmult_le_reg_r (IZR window)); [lra |].
    replace (Rsum l * Rsum l / IZR window * IZR window)
      with (Rsum l * Rsum l) by (field; lra).
    lra. }
  apply Rmult_le_pos; [lra |].
  apply Rlt_le, Rinv_0_lt_compat. lra.
Qed.

(** On such a window a cycle either yields and evicts, or divides by a zero
    deviation. *)
Lemma step_never_domain_error (window : Z) (threshold : R) (st : state)
    (l : list R) (smp : sample) :
  (1 < window)%Z -> holds st l -> (Z.of_nat (length l) < window)%Z ->
  finite_sample smp ->
  snd (step window threshold st smp) = Raise ZeroDivisionError \/
  exists st' l',
    snd (step window threshold st smp) = Ok st' /\
    holds st' l' /\ length l' = length l.
Proof.
  intros Hw Hh Hlen Hf. destruct smp as [t value]. unfold finite_sample in Hf.
  cbn [snd] in Hf. destruct (invalid value) eqn:Hv.
  - right. rewrite (step_invalid window threshold st t value Hv). cbn. eauto.
  - destruct (valid_finite value Hf Hv) as (r & Hr & _).
    rewrite (step_valid window threshold st t value (Fin r) Hv Hr).
    pose proof (holds_push st l r Hh) as Hp.
    destruct Hp as (Hwv & Hwsv & Hs & Hq).
    rewrite (decide_fin window threshold _ _ _ r Hw Hs Hq).
    assert (Hnn : 0 <= variance_expr window (Rsum (l ++ [r])) (Rsumsq (l ++ [r]))).
    { apply variance_expr_nonneg; [exact Hw |]. rewrite length_app. cbn. lia. }
    rewrite R_ltb_false by lra.
    destruct (R_eqb (sqrt (variance_expr window (Rsum (l ++ [r]))
                             (Rsumsq (l ++ [r])))) 0).
    + left. reflexivity.
    + right. cbn [snd].
      destruct (l ++ [r]) as [| x l'] eqn:Hl; [destruct l; discriminate |].
      destruct (holds_evict (push st (Fin r)) x l') as (st' & He & H').
      { repeat split; assumption. }
      exists st', l'. split; [exact He |]. split; [exact H' |].
      assert (Hlen' : length (l ++ [r]) = length (x :: l')) by now rewrite Hl.
      rewrite length_app in Hlen'. cbn in Hlen'. lia.
Qed.

Lemma stream_loop_never_domain_error (window : Z) (threshold : R)
    (live : list sample) :
  forall (st : state) (l : list R),
    (1 < window)%Z -> holds st l -> (Z.of_nat (length l) < window)%Z ->
    Forall finite_sample live ->
    forall e, snd (stream_loop window threshold live st) = Raise e ->
              e = ZeroDivisionError.
Proof.
  induction live as [| smp rest IH]; intros st l Hw Hh Hlen Hall e;
    cbn [stream_loop].
  - discriminate.
  - inversion Hall as [| ? ? Hf Hrest]; subst.
    destruct (step_never_domain_error window threshold st l smp Hw Hh Hlen Hf)
      as [Hz | (st' & l' & Hok & Hh' & Hl')].
    + destruct (step window threshold st smp) as [out r]. cbn [snd] in Hz.
      subst r. cbn. intros H. now inversion H.
    + destruct (step window threshold st smp) as [out r]. cbn [snd] in Hok.
      subst r.
      pose proof (IH st' l' Hw Hh' ltac:(lia) Hrest e) as IH'.
      destruct (stream_loop window threshold rest st') as [outs fin].
      exact IH'.
Qed.

(** X5.  In exact arithmetic [math.sqrt] never gets a negative argument when
    the bootstrap admitted fewer than [window] values: over finite values
    the only exception that can end the streaming loop is the
    [ZeroDivisionError] of line 121. *)
Theorem only_zero_division (window : Z) (threshold : R)
    (hist live : list sample) (e : exn) :
  (1 < window)%Z ->
  Forall finite_sample hist -> Forall finite_sample live ->
  (Z.of_nat (length (accepted hist)) < window)%Z ->
  snd (stream_loop window threshold live (bootstrap hist)) = Raise e ->
  e = ZeroDivisionError.
Proof.
  intros Hw Hh Hl Hlen.
  apply (stream_loop_never_domain_error window threshold live (bootstrap hist)
           (accepted_reals hist) Hw (bootstrap_accepted hist Hh)); [| exact Hl].
  unfold accepted_reals. now rewrite length_map.
Qed.

Lemma only_zero_division_witness :
  snd (stream_loop 2 default_threshold [(1%Z, PyInt 7)]
         (bootstrap [(0%Z, PyInt 7)]))
  = Raise ZeroDivisionError /\
  ZeroDivisionError = ZeroDivisionError.
Proof.
  assert (Hv : invalid (PyInt 7) = false) by (apply valid_int; lia).
  assert (Hb : holds (bootstrap [(0%Z, PyInt 7)]) [7]).
  { unfold bootstrap. cbn [fold_left].
    apply (bootstrap_sample_push _ []);
      [apply holds_initial | exact Hv | reflexivity]. }
  assert (Hrun : snd (stream_loop 2 default_threshold [(1%Z, PyInt 7)]
                        (bootstrap [(0%Z, PyInt 7)]))
                 = Raise ZeroDivisionError).
  { cbn [stream_loop].
    rewrite (constant_window_raises 2 default_threshold _ [7] 1 (PyInt 7) 7);
      solve [reflexivity | assumption | lia]. }
  split; [exact Hrun |].
  refine (only_zero_division 2 default_threshold [(0%Z, PyInt 7)]
            [(1%Z, PyInt 7)] ZeroDivisionError _ _ _ _ Hrun).
  - lia.
  - repeat constructor.
  - repeat constructor.
  - unfold accepted. cbn [filter snd]. rewrite Hv. cbn. lia.
Defined.

(** ** When exactly a cycle divides by zero *)

Lemma zero_centred_squares (m : R) (l : list R) :
  Rsum (map (fun x => (x - m) * (x - m)) l) = 0 -> Forall (fun x => x = m) l.
Proof.
  induction l as [| x l IH]; intros H; [constructor |].
  cbn [map] in H. rewrite Rsum_cons in H.
  pose proof (centred_squares_nonneg m l) as Hl.
  pose proof (Rle_0_sqr (x - m)) as Hx. unfold Rsqr in Hx.
  constructor.
  - assert (Hz : (x - m) * (x - m) = 0) by lra.
    apply Rmult_integral in Hz. lra.
  - apply IH. lra.
Qed.

Lemma forall_equal_repeat (c : R) (l : list R) :
  Forall (fun x => x = c) l -> l = repeat c (length l).
Proof.
  induction l as [| x l IH]; intros H; [reflexivity |].
  inversion H as [| ? ? Hx Hl]; subst. cbn. f_equal. now apply IH.
Qed.

Lemma repeat_forall_equal (c : R) (n : nat) : Forall (fun x => x = c) (repeat c n).
Proof. induction n; cbn; constructor; [reflexivity | assumption]. Qed.

(** The variance expression vanishes exactly on equal values that fill the
    window or are all zero. *)
Lemma variance_expr_zero_iff (window : Z) (l : list R) (c : R) :
  (1 < window)%Z -> (Z.of_nat (length (l ++ [c])) <= window)%Z ->
  variance_expr window (Rsum (l ++ [c])) (Rsumsq (l ++ [c])) = 0 <->
  Forall (fun x => x = c) l /\
  (Z.of_nat (length (l ++ [c])) = window \/ c = 0).
Proof.
  intros Hw Hlen.
  set (l' := l ++ [c]) in *.
  assert (Hpos : 1 < IZR window) by (apply IZR_lt in Hw; exact Hw).
  assert (Hk : INR (length l') <= IZR window)
    by (rewrite INR_IZR_INZ; now apply IZR_le).
  assert (Hk0 : 0 < INR (length l')).
  { apply lt_0_INR. unfold l'. rewrite length_app. cbn. lia. }
  rewrite (variance_expr_factored window _ _ Hw).
  pose proof (square_of_sum l') as Hcs.
  pose proof (Rsumsq_nonneg l') as Hq.
  split.
  - intros Hz.
    assert (Hnum : Rsumsq l' - Rsum l' * Rsum l' / IZR window = 0).
    { apply Rmult_integral in Hz. destruct Hz as [Hz | Hz]; [exact Hz |].
      exfalso. apply (Rinv_neq_0_compat (IZR window - 1)); [lra | exact Hz]. }
    assert (HS : Rsum l' * Rsum l' = IZR window * Rsumsq l').
    { replace (Rsum l' * Rsum l')
        with (Rsum l' * Rsum l' / IZR window * IZR window) by (field; lra).
      replace (Rsum l' * Rsum l' / IZR window) with (Rsumsq l') by lra. ring. }
    assert (Hgap : (IZR window - INR (length l')) * Rsumsq l' = 0).
    { assert (H1 : 0 <= (IZR window - INR (length l')) * Rsumsq l')
        by (apply Rmult_le_pos; lra).
      lra. }
    assert (HkQ : INR (length l') * Rsumsq l' = Rsum l' * Rsum l') by lra.
    assert (Hall : Forall (fun x => x = Rsum l' / INR (length l')) l').
    { apply zero_centred_squares. rewrite centred_squares.
      replace (Rsumsq l') with (Rsum l' * Rsum l' / INR (length l'))
        by (rewrite <- HkQ; field; lra).
      field. lra. }
    unfold l' in Hall. apply Forall_app in Hall. destruct Hall as [Hl Hc].
    inversion Hc as [| ? ? Hceq _]; subst.
    split.
    + eapply Forall_impl; [| exact Hl]. intros x Hx. cbn in Hx.
      fold l' in Hceq. rewrite Hx. symmetry. exact Hceq.
    + apply Rmult_integral in Hgap. destruct Hgap as [Hg | Hg].
      * left. apply eq_IZR. rewrite <- INR_IZR_INZ. lra.
      * right. unfold l' in Hg. rewrite Rsumsq_app in Hg.
        pose proof (Rsumsq_nonneg l) as Hql.
        unfold Rsumsq at 2 in Hg. unfold Rsum in Hg. cbn in Hg.
        pose proof (Rle_0_sqr c) as Hc2. unfold Rsqr in Hc2.
        assert (Hcc : c * c = 0) by lra.
        apply Rmult_integral in Hcc. lra.
  - intros [Hall Hor].
    assert (Hrep : l' = repeat c (length l')).
    { apply forall_equal_repeat. unfold l'. apply Forall_app. split; [exact Hall |].
      constructor; [reflexivity | constructor]. }
    rewrite Hrep, Rsum_repeat, Rsumsq_repeat.
    destruct Hor as [Hfull | Hzero].
    + assert (Hn : INR (length l') = IZR window)
        by (rewrite INR_IZR_INZ; now f_equal).
      rewrite Hn. field. lra.
    + subst c. field. lra.
Qed.

(** X6.  On a window that is not over-full, a cycle for an accepted finite
    value ends in [ZeroDivisionError] exactly when all values in the window,
    the new one included, are equal and either fill the window or are zero;
    in every other case the cycle yields its decision. *)
Theorem zero_division_exactly (window : Z) (threshold : R) (st : state)
    (l : list R) (t : timestamp) (value : pyobj) (c : R) :
  (1 < window)%Z -> holds st l -> (Z.of_nat (length l) < window)%Z ->
  invalid value = false -> as_number value = Some (Fin c) ->
  (step window threshold st (t, value) = ([], Raise ZeroDivisionError) <->
   Forall (fun x => x = c) l /\
   ((Z.of_nat (length l) + 1)%Z = window \/ c = 0)) /\
  (step window threshold st (t, value) = ([], Raise ZeroDivisionError) \/
   exists b st', step window threshold st (t, value) = ([(t, value, b)], Ok st')).
Proof.
  intros Hw Hh Hlen Hv Hr.
  assert (Hlen' : (Z.of_nat (length (l ++ [c])) <= window)%Z)
    by (rewrite length_app; cbn; lia).
  assert (Hlen2 : Z.of_nat (length (l ++ [c])) = (Z.of_nat (length l) + 1)%Z)
    by (rewrite length_app; cbn; lia).
  pose proof (variance_expr_zero_iff window l c Hw Hlen') as Hiff.
  rewrite Hlen2 in Hiff.
  pose proof (variance_expr_nonneg window (l ++ [c]) Hw Hlen') as Hnn.
  destruct (holds_push st l c Hh) as (_ & _ & Hs & Hq).
  rewrite (step_valid window threshold st t value (Fin c) Hv Hr).
  destruct (Req_dec_T (variance_expr window (Rsum (l ++ [c])) (Rsumsq (l ++ [c]))) 0)
    as [Hz | Hnz].
  - rewrite (decide_zero window threshold _ _ _ c Hw Hs Hq Hz). split.
    + split; [intros _; now apply Hiff | reflexivity].
    + now left.
  - assert (Hpos : 0 < variance_expr window (Rsum (l ++ [c])) (Rsumsq (l ++ [c])))
      by lra.
    rewrite (decide_positive window threshold _ _ _ c Hw Hs Hq Hpos).
    destruct (evict_push st (Fin c)) as (st' & old & He & _). rewrite He.
    split.
    + split; [discriminate |]. intros H. exfalso. apply Hnz. now apply Hiff.
    + right. eauto.
Qed.

Lemma zero_division_exactly_witness :
  step 3 default_threshold (bootstrap [(0%Z, PyInt 0)]) (1%Z, PyInt 0)
  = ([], Raise ZeroDivisionError).
Proof.
  assert (Hv : invalid (PyInt 0) = false) by (apply valid_int; lia).
  assert (Hb : holds (bootstrap [(0%Z, PyInt 0)]) [0]).
  { unfold bootstrap. cbn [fold_left].
    apply (bootstrap_sample_push _ []);
      [apply holds_initial | exact Hv | reflexivity]. }
  apply (proj1 (zero_division_exactly 3 default_threshold _ [0] 1 (PyInt 0) 0
                  ltac:(lia) Hb ltac:(cbn; lia) Hv eq_refl)).
  split; [repeat constructor | now right].
Defined.

(** ** An over-full window *)

(** X7.  When the window holds more than [window] values at the decision,
    all equal and not zero (as when the bootstrap admitted [window] or more
    samples of constant data), the variance expression is negative and
    [math.sqrt] raises [ValueError]; nothing is yielded. *)
Theorem overfull_constant_window_raises (window : Z) (threshold : R)
    (st : state) (l : list R) (t : timestamp) (value : pyobj) (c : R) :
  (1 < window)%Z -> holds st l ->
  invalid value = false -> as_number value = Some (Fin c) ->
  Forall (fun x => x = c) l -> (window < Z.of_nat (length l) + 1)%Z -> c <> 0 ->
  step window threshold st (t, value) = ([], Raise ValueError).
Proof.
  intros Hw Hh Hv Hr Hall Hlen Hc.
  destruct (holds_push st l c Hh) as (_ & _ & Hs & Hq).
  rewrite (step_valid window threshold st t value (Fin c) Hv Hr).
  rewrite (decide_negative window threshold _ _ _ c Hw Hs Hq); [reflexivity |].
  assert (Hrep : l ++ [c] = repeat c (length (l ++ [c]))).
  { apply forall_equal_repeat. apply Forall_app. split; [exact Hall |].
    constructor; [reflexivity | constructor]. }
  rewrite Hrep, Rsum_repeat, Rsumsq_repeat.
  rewrite (variance_expr_factored window _ _ Hw).
  assert (Hpos : 1 < IZR window) by (apply IZR_lt in Hw; exact Hw).
  assert (Hk : IZR window < INR (length (l ++ [c]))).
  { rewrite INR_IZR_INZ. apply IZR_lt. rewrite length_app. cbn. lia. }
  set (K := INR (length (l ++ [c]))) in *.
  assert (Hcc : 0 < c * c).
  { pose proof (Rle_0_sqr c) as H. unfold Rsqr in H.
    destruct (Req_dec_T (c * c) 0) as [Hz | Hnz]; [| lra].
    apply Rmult_integral in Hz. lra. }
  replace ((K * (c * c) - K * c * (K * c) / IZR window) / (IZR window - 1))
    with (K * (c * c) * (IZR window - K) * / (IZR window * (IZR window - 1)))
    by (field; lra).
  assert (Hden : 0 < / (IZR window * (IZR window - 1))).
  { apply Rinv_0_lt_compat. apply Rmult_lt_0_compat; lra. }
  assert (Hnum : K * (c * c) * (IZR window - K) < 0).
  { assert (H1 : 0 < K * (c * c)) by (apply Rmult_lt_0_compat; lra).
    assert (H2 : 0 < K * (c * c) * (K - IZR window))
      by (apply Rmult_lt_0_compat; lra).
    lra. }
  assert (H3 : 0 < - (K * (c * c) * (IZR window - K))
                   * / (IZR window * (IZR window - 1)))
    by (apply Rmult_lt_0_compat; lra).
  lra.
Qed.

Lemma overfull_constant_window_raises_witness :
  step 2 default_threshold (bootstrap [(0%Z, PyInt 5); (1%Z, PyInt 5)])
    (2%Z, PyInt 5)
  = ([], Raise ValueError).
Proof.
  assert (Hv : invalid (PyInt 5) = false) by (apply valid_int; lia).
  assert (Hb : holds (bootstrap [(0%Z, PyInt 5); (1%Z, PyInt 5)]) [5; 5]).
  { unfold bootstrap. cbn [fold_left].
    apply (bootstrap_sample_push _ [5]); [| exact Hv | reflexivity].
    apply (bootstrap_sample_push _ []); [| exact Hv | reflexivity].
    apply holds_initial. }
  apply (overfull_constant_window_raises 2 default_threshold _ [5; 5] 2
           (PyInt 5) 5 ltac:(lia) Hb Hv eq_refl).
  - repeat constructor.
  - cbn. lia.
  - lra.
Defined.

(** ** How far the newest value can lie from the mean *)

Lemma Rsum_shift (m : R) (l : list R) :
  Rsum (map (fun x => x - m) l) = Rsum l - INR (length l) * m.
Proof.
  induction l as [| x l IH].
  - unfold Rsum. cbn. lra.
  - cbn [map]. rewrite !Rsum_cons, IH.
    change (length (x :: l)) with (S (length l)). rewrite S_INR. lra.
Qed.

Lemma Rsumsq_shift (m : R) (l : list R) :
  Rsumsq (map (fun x => x - m) l) = Rsum (map (fun x => (x - m) * (x - m)) l).
Proof. unfold Rsumsq. now rewrite map_map. Qed.

(** With [n] values of mean [m], [n] times the squared deviation of the last
    one is at most [n - 1] times the centred sum of squares. *)
Lemma newest_deviation_bound (l : list R) (v : R) :
  let n := INR (length (l ++ [v])) in
  let m := Rsum (l ++ [v]) / n in
  n * ((v - m) * (v - m))
  <= (n - 1) * Rsum (map (fun x => (x - m) * (x - m)) (l ++ [v])).
Proof.
  intros n m.
  assert (Hn : n = INR (length l) + 1).
  { unfold n. rewrite length_app. cbn [length]. rewrite Nat.add_1_r, S_INR. ring. }
  assert (Hn0 : 0 < n).
  { rewrite Hn. pose proof (pos_INR (length l)). lra. }
  assert (Hlast : forall y, Rsum [y] = y)
    by (intros y; unfold Rsum; cbn [fold_right]; lra).
  assert (HS : Rsum l + v = n * m).
  { unfold m. rewrite Rsum_app, Hlast. field. lra. }
  pose proof (square_of_sum (map (fun x => x - m) l)) as Hcs.
  rewrite Rsum_shift, Rsumsq_shift, length_map in Hcs.
  rewrite map_app, Rsum_app. cbn [map]. rewrite Hlast.
  set (T := Rsum (map (fun x => (x - m) * (x - m)) l)) in *.
  clearbody T m n. subst n.
  replace (Rsum l - INR (length l) * m) with (- (v - m)) in Hcs by lra.
  replace (INR (length l) + 1 - 1) with (INR (length l)) by lra.
  nra.
Qed.

(** X8.  On a full window the newest value is never more than
    [(window - 1) / sqrt window] standard deviations from the mean, so a
    threshold at least that large flags nothing: if
    [(window - 1)^2 <= threshold^2 * window], no cycle on a window that
    holds [window] values yields [is_outlier = True].  With the default
    threshold 2.25 this is every window from 2 to 6. *)
Theorem small_window_never_flags (window : Z) (threshold : R) (st : state)
    (l : list R) (t : timestamp) (value : pyobj) (v : R) :
  (1 < window)%Z -> holds st l -> (Z.of_nat (length l) + 1)%Z = window ->
  invalid value = false -> as_number value = Some (Fin v) ->
  0 <= threshold ->
  (IZR window - 1) * (IZR window - 1) <= threshold * threshold * IZR window ->
  Forall (fun d : decision => snd d = false)
    (fst (step window threshold st (t, value))).
Proof.
  intros Hw Hh Hlen Hv Hr Hthr Hsmall.
  assert (Hlen' : Z.of_nat (length (l ++ [v])) = window)
    by (rewrite length_app; cbn; lia).
  assert (Hpos : 1 < IZR window) by (apply IZR_lt in Hw; exact Hw).
  assert (Hn : INR (length (l ++ [v])) = IZR window)
    by (rewrite INR_IZR_INZ; now f_equal).
  destruct (holds_push st l v Hh) as (_ & _ & Hs & Hq).
  rewrite (step_valid window threshold st t value (Fin v) Hv Hr).
  rewrite (decide_fin window threshold _ _ _ v Hw Hs Hq).
  pose proof (variance_expr_nonneg window (l ++ [v]) Hw ltac:(lia)) as Hnn.
  pose proof (variance_expr_sample window (l ++ [v]) Hw Hlen') as Hsv.
  pose proof (newest_deviation_bound l v) as Hdev. cbn zeta in Hdev.
  rewrite Hn in Hdev.
  set (V := variance_expr window (Rsum (l ++ [v])) (Rsumsq (l ++ [v]))) in *.
  set (m := Rsum (l ++ [v]) / IZR window) in *.
  rewrite R_ltb_false by lra.
  destruct (R_eqb (sqrt V) 0) eqn:Hsd; [constructor |].
  cbn [fst]. constructor; [| constructor]. cbn [snd].
  apply R_ltb_false.
  assert (Hsd0 : sqrt V <> 0).
  { intros H0. unfold R_eqb in Hsd. destruct (Req_dec_T (sqrt V) 0);
      [discriminate | contradiction]. }
  assert (HVpos : 0 < V).
  { destruct (Req_dec_T V 0) as [Hz | Hnz]; [| lra].
    exfalso. apply Hsd0. rewrite Hz. apply sqrt_0. }
  pose proof (sqrt_lt_R0 V HVpos) as Hsdpos.
  pose proof (sqrt_sqrt V Hnn) as Hsq.
  rewrite Rabs_div_pos by exact Hsdpos.
  (* the centred sum of squares is (window - 1) * V *)
  assert (HT : Rsum (map (fun x => (x - m) * (x - m)) (l ++ [v]))
               = (IZR window - 1) * V).
  { rewrite Hsv. unfold sample_variance, mean_of. rewrite Hn. fold m.
    field. lra. }
  rewrite HT in Hdev.
  assert (Hd2 : IZR window * ((v - m) * (v - m))
                <= threshold * threshold * IZR window * V) by nra.
  assert (Hd3 : (v - m) * (v - m) <= threshold * threshold * V) by nra.
  intros Hlt.
  assert (Habs : Rabs (v - m) * Rabs (v - m) = (v - m) * (v - m)).
  { unfold Rabs. destruct (Rcase_abs (v - m)); ring. }
  assert (Hmul : threshold * sqrt V < Rabs (v - m)).
  { apply (Rmult_lt_compat_r (sqrt V)) in Hlt; [| exact Hsdpos].
    replace (Rabs (v - m) / sqrt V * sqrt V) with (Rabs (v - m)) in Hlt
      by (field; lra).
    exact Hlt. }
  assert (Hsqr : threshold * sqrt V * (threshold * sqrt V)
                 < Rabs (v - m) * Rabs (v - m)).
  { assert (H0 : 0 <= threshold * sqrt V) by (apply Rmult_le_pos; lra).
    nra. }
  replace (threshold * sqrt V * (threshold * sqrt V))
    with (threshold * threshold * (sqrt V * sqrt V)) in Hsqr by ring.
  rewrite Hsq, Habs in Hsqr. lra.
Qed.

Lemma small_window_never_flags_witness :
  Forall (fun d : decision => snd d = false)
    (fst (step 3 default_threshold
            (bootstrap [(0%Z, PyInt 0); (1%Z, PyInt 1)]) (2%Z, PyInt 2))).
Proof.
  destruct run_0_1_2 as (Hb & _).
  apply (small_window_never_flags 3 default_threshold _ [0; 1] 2 (PyInt 2) 2
           ltac:(lia) Hb eq_refl (valid_int 2 ltac:(lia)) eq_refl).
  - unfold default_threshold. lra.
  - unfold default_threshold. lra.
Defined.

(** ** What the historical lookup returns *)

Lemma div_le_iff (x y i : R) : 0 < i -> (x / i <= y <-> x <= y * i).
Proof.
  intros Hi. assert (Hx : x / i * i = x) by (field; lra). split; intros H.
  - rewrite <- Hx. apply Rmult_le_compat_r; lra.
  - apply (Rmult_le_reg_r i); [exact Hi |]. now rewrite Hx.
Qed.

Lemma le_div_iff (x y i : R) : 0 < i -> (y <= x / i <-> y * i <= x).
Proof.
  intros Hi. assert (Hx : x / i * i = x) by (field; lra). split; intros H.
  - rewrite <- Hx. apply Rmult_le_compat_r; lra.
  - apply (Rmult_le_reg_r i); [exact Hi |]. now rewrite Hx.
Qed.

Lemma ceil_least (x : R) (z : Z) : x <= IZR z -> (ceil x <= z)%Z.
Proof.
  intros H. destruct (ceil_bounds x) as [H1 _].
  assert (Hlt : IZR (ceil x) < IZR (z + 1)) by (rewrite plus_IZR; lra).
  apply lt_IZR in Hlt. lia.
Qed.

Lemma floor_greatest (x : R) (z : Z) : IZR z <= x -> (z <= floor x)%Z.
Proof.
  intros H. destruct (floor_bounds x) as [_ H2].
  assert (Hlt : IZR z < IZR (floor x + 1)) by (rewrite plus_IZR; lra).
  apply lt_IZR in Hlt. lia.
Qed.

Lemma floor_shift (x : R) (c : Z) : floor (x - IZR c) = (floor x - c)%Z.
Proof.
  apply floor_unique. rewrite minus_IZR. destruct (floor_bounds x). lra.
Qed.

Lemma range_in (n i : Z) : In i (EnergyData.range n) <-> (0 <= i < n)%Z.
Proof.
  unfold EnergyData.range. rewrite in_map_iff. split.
  - intros (k & Hk & Hin). apply in_seq in Hin. lia.
  - intros H. exists (Z.to_nat i). split; [lia |]. apply in_seq. lia.
Qed.

(** The number of steps, in closed form. *)
Lemma lookup_steps (start end_ : R) (inc : Z) :
  (0 < inc)%Z ->
  (floor ((end_ - IZR (ceil (start / IZR inc) * inc)) / IZR inc) + 1)%Z
  = (floor (end_ / IZR inc) - ceil (start / IZR inc) + 1)%Z.
Proof.
  intros Hinc. assert (HI : 0 < IZR inc) by (apply IZR_lt in Hinc; exact Hinc).
  replace ((end_ - IZR (ceil (start / IZR inc) * inc)) / IZR inc)
    with (end_ / IZR inc - IZR (ceil (start / IZR inc)))
    by (rewrite mult_IZR; field; lra).
  now rewrite floor_shift.
Qed.

(** X9.  In exact arithmetic (the divisions by the increment taken as real
    divisions), with a positive increment the lookup returns, oldest first
    and one increment apart, exactly the samples at the multiples of the
    increment that lie in [[start, end]], each with the energy value of its
    own timestamp; there are [floor(end/inc) - ceil(start/inc) + 1] of them,
    or none when that is not positive. *)
Theorem lookup_returns_grid (energy : Z -> num) (start end_ : R) (inc : Z) :
  (0 < inc)%Z ->
  exists hist,
    EnergyData.get_historical_energy_data energy start end_ inc = Ok hist /\
    (forall t v,
        In (t, v) hist <->
        (exists k, t = (k * inc)%Z) /\ start <= IZR t <= end_ /\
        v = PyFloat (energy t)) /\
    map fst hist
    = map (fun i => (ceil (start / IZR inc) * inc + inc * i)%Z)
        (EnergyData.range
           (floor (end_ / IZR inc) - ceil (start / IZR inc) + 1)) /\
    length hist
    = Z.to_nat (floor (end_ / IZR inc) - ceil (start / IZR inc) + 1).
Proof.
  intros Hinc. assert (HI : 0 < IZR inc) by (apply IZR_lt in Hinc; exact Hinc).
  unfold EnergyData.get_historical_energy_data.
  destruct (Z.leb_spec inc 0) as [H | _]; [lia |].
  rewrite (lookup_steps start end_ inc Hinc).
  set (c := ceil (start / IZR inc)).
  set (f := floor (end_ / IZR inc)).
  eexists. split; [reflexivity |].
  destruct (ceil_bounds (start / IZR inc)) as [_ Hc]. fold c in Hc.
  destruct (floor_bounds (end_ / IZR inc)) as [Hf _]. fold f in Hf.
  apply div_le_iff in Hc; [| exact HI]. apply le_div_iff in Hf; [| exact HI].
  split; [| split].
  - intros t v. rewrite in_map_iff. split.
    + intros (i & Heq & Hin). apply range_in in Hin. inversion Heq; subst.
      split; [exists (c + i)%Z; lia |]. split; [| reflexivity].
      replace (c * inc + inc * i)%Z with ((c + i) * inc)%Z by lia.
      rewrite mult_IZR.
      assert (Hci : IZR c <= IZR (c + i)) by (apply IZR_le; lia).
      assert (Hif : IZR (c + i) <= IZR f) by (apply IZR_le; lia).
      split.
      * apply Rle_trans with (IZR c * IZR inc); [exact Hc |].
        apply Rmult_le_compat_r; lra.
      * apply Rle_trans with (IZR f * IZR inc); [| exact Hf].
        apply Rmult_le_compat_r; lra.
    + intros ((k & Hk) & [Hs He] & Hv). subst t v. rewrite mult_IZR in Hs, He.
      assert (Hck : (c <= k)%Z).
      { apply ceil_least. apply div_le_iff; assumption. }
      assert (Hkf : (k <= f)%Z).
      { apply floor_greatest. apply le_div_iff; assumption. }
      exists (k - c)%Z. split.
      * replace (c * inc + inc * (k - c))%Z with (k * inc)%Z by lia. reflexivity.
      * apply range_in. lia.
  - rewrite map_map. reflexivity.
  - now rewrite length_map, range_length.
Qed.

Lemma lookup_returns_grid_witness :
  (0 < 10)%Z /\
  exists hist,
    EnergyData.get_historical_energy_data (fun _ => Fin 1) 5 31 10 = Ok hist /\
    length hist = Z.to_nat (floor (31 / IZR 10) - ceil (5 / IZR 10) + 1).
Proof.
  split; [lia |].
  destruct (lookup_returns_grid (fun _ => Fin 1) 5 31 10 ltac:(lia))
    as (hist & Hok & _ & _ & Hlen).
  exists hist. split; [exact Hok | exact Hlen].
Defined.

(** X10.  Through the repository's lookup, with the engine's increment left
    at the default the lookup steps by, [now] off the increment grid and
    every energy value valid, the bootstrap admits exactly [window - 1]
    historical values, and every state a run reaches between two cycles
    holds that many. *)
Theorem default_bootstrap_size (energy : Z -> num)
    (generate_data_stream : Z -> R -> list sample)
    (now : R) (window : Z) (threshold stream_delay : R) (st : state) :
  (1 < window)%Z ->
  (forall t, invalid (PyFloat (energy t)) = false) ->
  (forall z, now <> IZR z * IZR default_timestamp_increment) ->
  final (process_z_score_outliers (EnergyData.historical_lookup energy)
           generate_data_stream now window threshold
           default_timestamp_increment stream_delay) = Ok st ->
  Z.of_nat (length (window_values st)) = (window - 1)%Z.
Proof.
  intros Hw Hval Hoff.
  destruct (lookup_ok energy
              (now - IZR ((window - 1) * default_timestamp_increment)) now
              default_timestamp_increment ltac:(reflexivity))
    as (hist & Hok & Hlen & Hall).
  destruct (steps_between now window default_timestamp_increment Hw
              ltac:(reflexivity)) as [Hgen _].
  rewrite (Hgen Hoff) in Hlen.
  unfold process_z_score_outliers.
  destruct (Z.leb_spec window 1) as [H | _]; [lia |].
  unfold EnergyData.historical_lookup.
  change EnergyData.default_timestamp_increment with default_timestamp_increment.
  rewrite Hok.
  destruct (stream_loop window threshold
              (generate_data_stream default_timestamp_increment stream_delay)
              (bootstrap hist)) as [outs fin] eqn:Hrun.
  cbn [final]. intros Hfin. subst fin.
  rewrite (stream_loop_length _ _ _ _ _ _ Hrun).
  rewrite bootstrap_length by (eapply lookup_all_valid; eassumption).
  lia.
Qed.

Lemma default_bootstrap_size_witness :
  exists st,
    final (process_z_score_outliers
             (EnergyData.historical_lookup (fun _ => Fin 25000))
             (fun _ _ => []) 1730000000 default_window default_threshold
             default_timestamp_increment default_stream_delay) = Ok st /\
    Z.of_nat (length (window_values st)) = (default_window - 1)%Z.
Proof.
  destruct (lookup_ok (fun _ => Fin 25000)
              (1730000000 - IZR ((default_window - 1) * default_timestamp_increment))
              1730000000 default_timestamp_increment ltac:(reflexivity))
    as (hist & Hok & _).
  assert (Hrun : process_z_score_outliers
                   (EnergyData.historical_lookup (fun _ => Fin 25000))
                   (fun _ _ => []) 1730000000 default_window default_threshold
                   default_timestamp_increment default_stream_delay
                 = mkOutcome
                     [(1730000000
                       - IZR ((default_window - 1) * default_timestamp_increment),
                       1730000000)] [] (Ok (bootstrap hist))).
  { apply process_bootstrap; [reflexivity | exact Hok | reflexivity]. }
  exists (bootstrap hist). split; [now rewrite Hrun |].
  apply (default_bootstrap_size (fun _ => Fin 25000) (fun _ _ => [])
           1730000000 default_window default_threshold default_stream_delay).
  - reflexivity.
  - intros t. cbn. apply R_ltb_false. lra.
  - intros z Hz. rewrite <- mult_IZR in Hz. apply eq_IZR in Hz.
    unfold default_timestamp_increment in Hz. lia.
  - now rewrite Hrun.
Defined.

(** ** The simulated live stream *)

Lemma R_leb_true (x y : R) : x <= y -> R_leb x y = true.
Proof. intros H. unfold R_leb. destruct (Rle_dec x y); [reflexivity | contradiction]. Qed.

Lemma R_leb_false (x y : R) : y < x -> R_leb x y = false.
Proof. intros H. unfold R_leb. destruct (Rle_dec x y); [lra | reflexivity]. Qed.

Lemma stream_items_length (gauss : Z -> R) (inc : Z) (n : nat) :
  forall t0 : Z, length (EnergySource.stream_items gauss t0 inc n) = n.
Proof. induction n as [| n IH]; intros t0; cbn; [reflexivity | now rewrite IH]. Qed.

Lemma stream_items_timestamps (gauss : Z -> R) (inc : Z) (n : nat) :
  forall t0 : Z,
    map fst (EnergySource.stream_items gauss t0 inc n)
    = map (fun i => (t0 + inc * Z.of_nat i)%Z) (seq 0 n).
Proof.
  induction n as [| n IH]; intros t0; [reflexivity |].
  cbn [EnergySource.stream_items map seq fst]. f_equal; [lia |].
  rewrite IH, <- seq_shift, map_map.
  apply map_ext. intros i. lia.
Qed.

Lemma stream_items_values (gauss : Z -> R) (inc : Z) (n : nat) :
  forall t0 : Z,
    Forall (fun smp => snd smp = PyFloat (EnergySource.energy_float gauss (fst smp)))
      (EnergySource.stream_items gauss t0 inc n).
Proof.
  induction n as [| n IH]; intros t0; cbn; constructor; [reflexivity | apply IH].
Qed.

(** X11.  The stream generator raises [ValueError] when the increment or the
    delay is not positive, before yielding anything.  Otherwise the items
    pulled are one increment apart, start at the first multiple of the
    increment that is not before the clock reading, which is less than one
    increment after it, and each carries the energy value of its own
    timestamp. *)
Theorem stream_yields_grid (gauss : Z -> R) (clock : R) (pulled : nat)
    (inc : Z) (stream_delay : R) :
  ((inc <= 0)%Z \/ stream_delay <= 0 ->
   EnergySource.generate_energy_data_stream gauss clock pulled inc stream_delay
   = Raise ValueError) /\
  ((0 < inc)%Z -> 0 < stream_delay ->
   let t0 := (ceil (clock / IZR inc) * inc)%Z in
   exists items,
     EnergySource.generate_energy_data_stream gauss clock pulled inc stream_delay
     = Ok items /\
     length items = pulled /\
     map fst items = map (fun i => (t0 + inc * Z.of_nat i)%Z) (seq 0 pulled) /\
     clock <= IZR t0 < clock + IZR inc /\
     Forall (fun smp => snd smp = PyFloat (EnergySource.energy_float gauss (fst smp)))
       items).
Proof.
  unfold EnergySource.generate_energy_data_stream. split.
  - intros [Hinc | Hd].
    + destruct (Z.leb_spec inc 0) as [_ | H]; [reflexivity | lia].
    + destruct (inc <=? 0)%Z; [reflexivity |]. now rewrite R_leb_true.
  - intros Hinc Hd.
    assert (HI : 0 < IZR inc) by (apply IZR_lt in Hinc; exact Hinc).
    destruct (Z.leb_spec inc 0) as [H | _]; [lia |].
    rewrite R_leb_false by exact Hd.
    eexists. split; [reflexivity |].
    split; [apply stream_items_length |].
    split; [apply stream_items_timestamps |].
    split; [| apply stream_items_values].
    destruct (ceil_bounds (clock / IZR inc)) as [H1 H2].
    rewrite mult_IZR.
    apply div_le_iff in H2; [| exact HI].
    split; [exact H2 |].
    assert (H3 : (IZR (ceil (clock / IZR inc)) - 1) * IZR inc < clock).
    { assert (Hx : clock / IZR inc * IZR inc = clock) by (field; lra).
      rewrite <- Hx at 2. apply Rmult_lt_compat_r; lra. }
    lra.
Qed.

Lemma stream_yields_grid_witness :
  (0 < 10)%Z /\ 0 < Main.main_stream_delay /\
  exists items,
    EnergySource.generate_energy_data_stream (fun _ => 0) 25 3 10
      Main.main_stream_delay = Ok items /\
    length items = 3%nat.
Proof.
  assert (Hd : 0 < Main.main_stream_delay)
    by (unfold Main.main_stream_delay; lra).
  split; [lia |]. split; [exact Hd |].
  destruct (proj2 (stream_yields_grid (fun _ => 0) 25 3 10
                     Main.main_stream_delay) ltac:(lia) Hd)
    as (items & Hok & Hlen & _).
  exists items. split; [exact Hok | exact Hlen].
Defined.

(** ** History and stream on one time line *)

Lemma ceil_shift (x : R) (c : Z) : ceil (x - IZR c) = (ceil x - c)%Z.
Proof.
  apply ceil_unique. rewrite minus_IZR. destruct (ceil_bounds x). lra.
Qed.

Lemma ceil_le_floor_succ (x : R) : (ceil x <= floor x + 1)%Z.
Proof.
  apply ceil_least. rewrite plus_IZR. destruct (floor_bounds x). lra.
Qed.

Lemma last_range (g : Z -> Z) (n : Z) (d : Z) :
  (0 < n)%Z -> last (map g (EnergyData.range n)) d = g (n - 1)%Z.
Proof.
  intros Hn. unfold EnergyData.range.
  replace (Z.to_nat n) with (S (Z.to_nat (n - 1))) by lia.
  rewrite seq_S, !map_app. cbn [map]. rewrite last_last. f_equal. lia.
Qed.

Lemma lookup_timestamps (energy : Z -> num) (start end_ : R) (inc : Z) :
  (0 < inc)%Z ->
  exists hist,
    EnergyData.get_historical_energy_data energy start end_ inc = Ok hist /\
    map fst hist
    = map (fun i => (ceil (start / IZR inc) * inc + inc * i)%Z)
        (EnergyData.range
           (floor (end_ / IZR inc) - ceil (start / IZR inc) + 1)) /\
    length hist
    = Z.to_nat (floor (end_ / IZR inc) - ceil (start / IZR inc) + 1).
Proof.
  intros Hinc. unfold EnergyData.get_historical_energy_data.
  destruct (Z.leb_spec inc 0) as [H | _]; [lia |].
  rewrite (lookup_steps start end_ inc Hinc).
  eexists. split; [reflexivity |]. split.
  - rewrite map_map. reflexivity.
  - now rewrite length_map, range_length.
Qed.

Lemma stream_first_timestamp (gauss : Z -> R) (clock : R) (pulled : nat)
    (inc : Z) (stream_delay : R) :
  (0 < inc)%Z -> 0 < stream_delay ->
  exists items,
    EnergySource.generate_energy_data_stream gauss clock (S pulled) inc
      stream_delay = Ok items /\
    hd 0%Z (map fst items) = (ceil (clock / IZR inc) * inc)%Z.
Proof.
  intros Hinc Hd. unfold EnergySource.generate_energy_data_stream.
  destruct (Z.leb_spec inc 0) as [H | _]; [lia |].
  rewrite R_leb_false by exact Hd.
  eexists. split; reflexivity.
Qed.

(** X12.  History and stream share one grid when the engine runs at the
    default increment, the one its two-argument call of the lookup steps
    by.  In exact arithmetic: the lookup over the bootstrap range is not
    empty and its last timestamp is the last multiple of the increment not
    after [now].  When the stream's clock reading lies after that grid point
    and not after the next one, the stream's first timestamp is exactly one
    increment later, so the live data continues the history without gap or
    overlap; when the stream's clock reading is that very grid point, the
    stream's first item repeats the timestamp of the last historical
    sample. *)
Theorem stream_continues_history (gauss : Z -> R) (energy : Z -> num)
    (now clock : R) (window : Z) (pulled : nat) (stream_delay : R) :
  (1 < window)%Z -> 0 < stream_delay ->
  let last_grid :=
    (floor (now / IZR default_timestamp_increment)
     * default_timestamp_increment)%Z in
  exists hist items,
    EnergyData.historical_lookup energy
      (now - IZR ((window - 1) * default_timestamp_increment)) now = Ok hist /\
    EnergySource.generate_energy_data_stream gauss clock (S pulled)
      default_timestamp_increment stream_delay = Ok items /\
    hist <> [] /\
    last (map fst hist) 0%Z = last_grid /\
    (IZR last_grid < clock <= IZR last_grid + IZR default_timestamp_increment ->
     hd 0%Z (map fst items) = (last_grid + default_timestamp_increment)%Z) /\
    (clock = IZR last_grid -> hd 0%Z (map fst items) = last_grid).
Proof.
  intros Hw Hd last_grid.
  unfold EnergyData.historical_lookup.
  change EnergyData.default_timestamp_increment with default_timestamp_increment.
  set (inc := default_timestamp_increment) in *.
  assert (Hinc : (0 < inc)%Z) by reflexivity.
  assert (HI : 0 < IZR inc) by (apply IZR_lt in Hinc; exact Hinc).
  destruct (lookup_timestamps energy (now - IZR ((window - 1) * inc)) now inc
              Hinc) as (hist & Hok & Hts & Hlen).
  destruct (stream_first_timestamp gauss clock pulled inc stream_delay Hinc Hd)
    as (items & Hitems & Hits).
  exists hist, items. split; [exact Hok |]. split; [exact Hitems |].
  assert (Hstart : (now - IZR ((window - 1) * inc)) / IZR inc
                   = now / IZR inc - IZR (window - 1))
    by (rewrite mult_IZR; field; lra).
  rewrite Hstart, ceil_shift in Hts, Hlen.
  pose proof (ceil_le_floor_succ (now / IZR inc)) as Hcf.
  set (f := floor (now / IZR inc)) in *.
  set (c := ceil (now / IZR inc)) in *.
  assert (Hsteps : (0 < f - (c - (window - 1)) + 1)%Z) by lia.
  split; [| split; [| split]].
  - intros Hnil. rewrite Hnil in Hlen. cbn in Hlen. lia.
  - rewrite Hts, (last_range _ _ 0%Z Hsteps). unfold last_grid. lia.
  - intros [H1 H2]. rewrite Hits.
    rewrite (ceil_unique (clock / IZR inc) (f + 1)).
    + unfold last_grid. lia.
    + unfold last_grid in H1, H2. rewrite mult_IZR in H1, H2.
      rewrite plus_IZR. split.
      * replace (IZR f + 1 - 1) with (IZR f) by ring.
        apply (Rmult_lt_reg_r (IZR inc)); [exact HI |].
        replace (clock / IZR inc * IZR inc) with clock by (field; lra). exact H1.
      * apply div_le_iff; [exact HI |]. lra.
  - intros Hc. rewrite Hits.
    rewrite (ceil_unique (clock / IZR inc) f).
    + unfold last_grid. lia.
    + unfold last_grid in Hc. rewrite mult_IZR in Hc. rewrite Hc.
      replace (IZR f * IZR inc / IZR inc) with (IZR f) by (field; lra). lra.
Qed.

Lemma stream_continues_history_witness :
  (1 < 45)%Z /\ 0 < Main.main_stream_delay /\
  exists hist items,
    EnergyData.historical_lookup (fun _ => Fin 1)
      (1730000000 - IZR ((45 - 1) * default_timestamp_increment)) 1730000000
    = Ok hist /\
    EnergySource.generate_energy_data_stream (fun _ => 0) 1730000001 1
      default_timestamp_increment Main.main_stream_delay = Ok items /\
    last (map fst hist) 0%Z
    = (floor (1730000000 / IZR default_timestamp_increment)
       * default_timestamp_increment)%Z.
Proof.
  assert (Hd : 0 < Main.main_stream_delay)
    by (unfold Main.main_stream_delay; lra).
  split; [lia |]. split; [exact Hd |].
  destruct (stream_continues_history (fun _ => 0) (fun _ => Fin 1) 1730000000
              1730000001 45 0 Main.main_stream_delay ltac:(lia) Hd)
    as (hist & items & Hok & Hitems & _ & Hlast & _).
  exists hist, items. split; [exact Hok |]. split; [exact Hitems | exact Hlast].
Defined.

(** ** The simulated energy value *)

Lemma seconds_zero (period : Z) :
  (period * 24 * 60 * 60 =? 0)%Z = true <-> period = 0%Z.
Proof. rewrite Z.eqb_eq. lia. Qed.

Lemma sine_fn_zero (amplitude timestamp : Z) :
  EnergySource.sine_fn amplitude 0 timestamp = Raise ZeroDivisionError.
Proof. reflexivity. Qed.

Lemma sine_fn_ok (amplitude period timestamp : Z) :
  period <> 0%Z ->
  EnergySource.sine_fn amplitude period timestamp
  = Ok (IZR amplitude
        * sin (2 * PI * IZR timestamp / IZR (period * 24 * 60 * 60))).
Proof.
  intros Hp. unfold EnergySource.sine_fn.
  destruct (period * 24 * 60 * 60 =? 0)%Z eqn:He; [| reflexivity].
  apply seconds_zero in He. contradiction.
Qed.

Lemma sine_term_bound (a x : R) : Rabs (a * sin x) <= Rabs a.
Proof.
  rewrite Rabs_mult.
  assert (Hs : Rabs (sin x) <= 1) by (apply Rabs_le; apply SIN_bound).
  pose proof (Rabs_pos a) as Ha.
  replace (Rabs a) with (Rabs a * 1) at 2 by ring.
  apply Rmult_le_compat_l; assumption.
Qed.

(** X13.  [_get_energy_value] raises [ZeroDivisionError] when a period is
    zero.  With both periods non-zero it returns a finite float that lies
    within the sum of the two amplitudes of its noise term plus offset,
    [gauss * noise + y_offset]. *)
Theorem energy_value_range (gauss : Z -> R)
    (timestamp seasonal_period seasonal_amplitude regular_period
       regular_amplitude noise y_offset : Z) :
  (seasonal_period = 0%Z \/ regular_period = 0%Z ->
   EnergySource._get_energy_value gauss timestamp seasonal_period
     seasonal_amplitude regular_period regular_amplitude noise y_offset
   = Raise ZeroDivisionError) /\
  (seasonal_period <> 0%Z -> regular_period <> 0%Z ->
   exists v,
     EnergySource._get_energy_value gauss timestamp seasonal_period
       seasonal_amplitude regular_period regular_amplitude noise y_offset
     = Ok (Fin v) /\
     Rabs (v - (gauss timestamp * IZR noise + IZR y_offset))
     <= Rabs (IZR seasonal_amplitude) + Rabs (IZR regular_amplitude)).
Proof.
  unfold EnergySource._get_energy_value. split.
  - intros [Hs | Hr].
    + subst seasonal_period. now rewrite sine_fn_zero.
    + subst regular_period. rewrite sine_fn_zero.
      unfold EnergySource.sine_fn.
      destruct (seasonal_period * 24 * 60 * 60 =? 0)%Z; reflexivity.
  - intros Hs Hr. rewrite (sine_fn_ok _ _ _ Hs), (sine_fn_ok _ _ _ Hr).
    cbn [bind]. eexists. split; [reflexivity |].
    match goal with
    | |- Rabs (?a + ?b + ?g + ?y - (?g + ?y)) <= _ =>
        replace (a + b + g + y - (g + y)) with (a + b) by ring
    end.
    eapply Rle_trans; [apply Rabs_triang |].
    apply Rplus_le_compat; apply sine_term_bound.
Qed.

Lemma energy_value_range_witness :
  (365 <> 0)%Z /\ (7 <> 0)%Z /\
  exists v,
    EnergySource.energy_value (fun _ => 0) 1730000000 = Ok (Fin v) /\
    Rabs (v - (0 * IZR 500 + IZR 25000)) <= Rabs (IZR 500) + Rabs (IZR 250).
Proof.
  split; [lia |]. split; [lia |].
  exact (proj2 (energy_value_range (fun _ => 0) 1730000000 365 500 7 250 500 25000)
           ltac:(lia) ltac:(lia)).
Defined.

(** The call with defaults, spelled out. *)
Lemma energy_value_default (gauss : Z -> R) (t : Z) :
  EnergySource.energy_value gauss t
  = Ok (Fin (500 * sin (2 * PI * IZR t / IZR (365 * 24 * 60 * 60))
             + 250 * sin (2 * PI * IZR t / IZR (7 * 24 * 60 * 60))
             + gauss t * 500 + 25000)).
Proof.
  unfold EnergySource.energy_value, EnergySource._get_energy_value.
  rewrite (sine_fn_ok 500 365 t) by lia. rewrite (sine_fn_ok 250 7 t) by lia.
  reflexivity.
Qed.

(** X14.  With the default parameters the energy value at any timestamp is a
    finite float between [24250 + 500 * gauss] and [25750 + 500 * gauss];
    whenever the noise draw is at least -48.5 it is not negative, so the
    sample passes the engine's validity check. *)
Theorem default_energy_valid (gauss : Z -> R) (t : Z) :
  exists v,
    EnergySource.energy_float gauss t = Fin v /\
    24250 + 500 * gauss t <= v <= 25750 + 500 * gauss t /\
    (- (485 / 10) <= gauss t ->
     invalid (PyFloat (EnergySource.energy_float gauss t)) = false /\
     finite_sample (t, PyFloat (EnergySource.energy_float gauss t))).
Proof.
  unfold EnergySource.energy_float. rewrite energy_value_default.
  eexists. split; [reflexivity |].
  pose proof (SIN_bound (2 * PI * IZR t / IZR (365 * 24 * 60 * 60))) as H1.
  pose proof (SIN_bound (2 * PI * IZR t / IZR (7 * 24 * 60 * 60))) as H2.
  split; [lra |].
  intros Hg. split.
  - unfold invalid. cbn [as_number ltb of_int]. apply R_ltb_false. lra.
  - exact I.
Qed.

Lemma default_energy_valid_witness :
  - (485 / 10) <= 0 /\
  invalid (PyFloat (EnergySource.energy_float (fun _ => 0) 1730000000)) = false.
Proof.
  assert (H : - (485 / 10) <= 0) by lra.
  split; [exact H |].
  destruct (default_energy_valid (fun _ => 0) 1730000000) as (v & _ & _ & Hv).
  exact (proj1 (Hv H)).
Defined.

(** X15.  In exact arithmetic ([math.sin] and its argument taken as reals),
    apart from the noise the default signal repeats every 7 * 365 days: the
    energy values at [t] and at [t + 7 * 365 * 86400] differ by the
    difference of their noise terms only. *)
Theorem default_energy_periodic (gauss : Z -> R) (t : Z) :
  exists a b,
    EnergySource.energy_value gauss t = Ok (Fin a) /\
    EnergySource.energy_value gauss (t + 7 * 365 * 86400) = Ok (Fin b) /\
    b - 500 * gauss (t + 7 * 365 * 86400)%Z = a - 500 * gauss t.
Proof.
  rewrite !energy_value_default. eexists. eexists.
  split; [reflexivity |]. split; [reflexivity |].
  assert (Hs : sin (2 * PI * IZR (t + 7 * 365 * 86400) / IZR (365 * 24 * 60 * 60))
               = sin (2 * PI * IZR t / IZR (365 * 24 * 60 * 60))).
  { rewrite <- (sin_period (2 * PI * IZR t / IZR (365 * 24 * 60 * 60)) 7).
    f_equal. rewrite plus_IZR.
    change (365 * 24 * 60 * 60)%Z with 31536000%Z.
    change (7 * 365 * 86400)%Z with 220752000%Z.
    change (INR 7) with (1 + 1 + 1 + 1 + 1 + 1 + 1). field. }
  assert (Hr : sin (2 * PI * IZR (t + 7 * 365 * 86400) / IZR (7 * 24 * 60 * 60))
               = sin (2 * PI * IZR t / IZR (7 * 24 * 60 * 60))).
  { rewrite <- (sin_period (2 * PI * IZR t / IZR (7 * 24 * 60 * 60)) 365).
    f_equal. rewrite plus_IZR, INR_IZR_INZ.
    change (7 * 24 * 60 * 60)%Z with 604800%Z.
    change (7 * 365 * 86400)%Z with 220752000%Z.
    change (Z.of_nat 365) with 365%Z. field. }
  rewrite Hs, Hr. ring.
Qed.

(** ** The plotted view of [main] *)

Lemma skipn_uncons {A : Type} (k : nat) :
  forall l : list A,
    (k < length l)%nat -> exists y, skipn k l = y :: skipn (S k) l.
Proof.
  induction k as [| k IH]; intros [| x l] Hlt; cbn in Hlt; try lia.
  - exists x. reflexivity.
  - destruct (IH l ltac:(lia)) as [y Hy]. exists y. exact Hy.
Qed.

(** One queue of the view, one iteration: append, and pop once more than
    [view_window] items have been seen. *)
Lemma view_queue_full {A : Type} (l : list A) (x : A) :
  (365 < length l)%nat ->
  exists y,
    Main.pop_front (skipn (length l - 366) l ++ [x])
    = Ok (y, skipn (length (l ++ [x]) - 366) (l ++ [x])).
Proof.
  intros Hlen.
  destruct (skipn_uncons (length l - 366) l ltac:(lia)) as [y Hy].
  exists y. rewrite Hy. cbn [app Main.pop_front]. do 2 f_equal.
  rewrite length_app. cbn [length].
  replace (length l + 1 - 366)%nat with (S (length l - 366)) by lia.
  rewrite skipn_app.
  replace (S (length l - 366) - length l)%nat with 0%nat by lia.
  reflexivity.
Qed.

Lemma view_queue_filling {A : Type} (l : list A) (x : A) :
  (length l <= 365)%nat ->
  skipn (length l - 366) l ++ [x] = skipn (length (l ++ [x]) - 366) (l ++ [x]).
Proof.
  intros Hlen. rewrite length_app. cbn [length].
  replace (length l - 366)%nat with 0%nat by lia.
  replace (length l + 1 - 366)%nat with 0%nat by lia.
  reflexivity.
Qed.

Lemma plot_step_recent (seen : list decision) (v : Main.view) (d : decision) :
  Main.steps v = Z.of_nat (length seen) ->
  Main.timestamps v
  = skipn (length seen - 366) (map (fun d : decision => fst (fst d)) seen) ->
  Main.values v
  = skipn (length seen - 366) (map (fun d : decision => snd (fst d)) seen) ->
  Main.outliers v
  = skipn (length seen - 366)
      (map (fun d : decision => if snd d then Some (snd (fst d)) else None) seen) ->
  exists v',
    Main.plot_step v d = Ok v' /\
    Main.steps v' = Z.of_nat (length (seen ++ [d])) /\
    Main.timestamps v'
    = skipn (length (seen ++ [d]) - 366)
        (map (fun d : decision => fst (fst d)) (seen ++ [d])) /\
    Main.values v'
    = skipn (length (seen ++ [d]) - 366)
        (map (fun d : decision => snd (fst d)) (seen ++ [d])) /\
    Main.outliers v'
    = skipn (length (seen ++ [d]) - 366)
        (map (fun d : decision => if snd d then Some (snd (fst d)) else None) (seen ++ [d])).
Proof.
  intros Hs Ht Hv Ho. destruct d as [[t value] flag].
  unfold Main.plot_step. rewrite Hs, Ht, Hv, Ho.
  rewrite !map_app. cbn [map fst snd].
  unfold Main.view_window.
  destruct (Z.ltb_spec 365 (Z.of_nat (length seen))) as [Hfull | Hfill].
  - destruct (view_queue_full (map (fun d : decision => fst (fst d)) seen) t
                ltac:(rewrite length_map; lia)) as [y1 H1].
    destruct (view_queue_full (map (fun d : decision => snd (fst d)) seen) value
                ltac:(rewrite length_map; lia)) as [y2 H2].
    destruct (view_queue_full
                (map (fun d : decision =>
                        if snd d then Some (snd (fst d)) else None) seen)
                (if flag then Some value else None)
                ltac:(rewrite length_map; lia)) as [y3 H3].
    rewrite ?length_app, ?length_map in H1, H2, H3.
    rewrite H1. cbn [bind]. rewrite H2. cbn [bind]. rewrite H3. cbn [bind].
    eexists. split; [reflexivity |].
    cbn [Main.steps Main.timestamps Main.values Main.outliers].
    rewrite ?length_app. cbn [length].
    split; [lia |]. repeat split.
  - pose proof (view_queue_filling (map (fun d : decision => fst (fst d)) seen) t
                  ltac:(rewrite length_map; lia)) as H1.
    pose proof (view_queue_filling (map (fun d : decision => snd (fst d)) seen)
                  value ltac:(rewrite length_map; lia)) as H2.
    pose proof (view_queue_filling
                  (map (fun d : decision =>
                          if snd d then Some (snd (fst d)) else None) seen)
                  (if flag then Some value else None)
                  ltac:(rewrite length_map; lia)) as H3.
    rewrite ?length_app, ?length_map in H1, H2, H3.
    eexists. split; [reflexivity |].
    cbn [Main.steps Main.timestamps Main.values Main.outliers].
    rewrite ?length_app. cbn [length] in *.
    split; [lia |].
    rewrite H1, H2, H3. repeat split.
Qed.

Lemma main_loop_recent (decisions : list decision) :
  forall (seen : list decision) (v : Main.view),
    Main.steps v = Z.of_nat (length seen) ->
    Main.timestamps v
    = skipn (length seen - 366) (map (fun d : decision => fst (fst d)) seen) ->
    Main.values v
    = skipn (length seen - 366) (map (fun d : decision => snd (fst d)) seen) ->
    Main.outliers v
    = skipn (length seen - 366)
        (map (fun d : decision => if snd d then Some (snd (fst d)) else None) seen) ->
    exists v',
      Main.main_loop decisions v = Ok v' /\
      Main.steps v' = Z.of_nat (length (seen ++ decisions)) /\
      Main.timestamps v'
      = skipn (length (seen ++ decisions) - 366)
          (map (fun d : decision => fst (fst d)) (seen ++ decisions)) /\
      Main.values v'
      = skipn (length (seen ++ decisions) - 366)
          (map (fun d : decision => snd (fst d)) (seen ++ decisions)) /\
      Main.outliers v'
      = skipn (length (seen ++ decisions) - 366)
          (map (fun d : decision => if snd d then Some (snd (fst d)) else None)
             (seen ++ decisions)).
Proof.
  induction decisions as [| d rest IH]; intros seen v Hs Ht Hv Ho.
  - exists v. rewrite app_nil_r. cbn. repeat split; assumption.
  - destruct (plot_step_recent seen v d Hs Ht Hv Ho)
      as (v1 & Hstep & Hs1 & Ht1 & Hv1 & Ho1).
    destruct (IH (seen ++ [d]) v1 Hs1 Ht1 Hv1 Ho1) as (v' & Hloop & H').
    exists v'. cbn [Main.main_loop]. rewrite Hstep. cbn [bind].
    split; [exact Hloop |].
    replace (seen ++ d :: rest) with ((seen ++ [d]) ++ rest)
      by (rewrite <- app_assoc; reflexivity).
    exact H'.
Qed.

(** X16.  The loop of [main] never pops an empty queue, and after any number
    of decisions its three queues hold, in arrival order, the timestamps,
    the values and the outlier marks (the value when flagged, [None]
    otherwise) of the most recent [view_window + 1 = 366] decisions, or of
    all of them while fewer have arrived; the counter is the number of
    decisions seen. *)
Theorem main_view_recent (decisions : list decision) :
  exists v,
    Main.main_loop decisions Main.initial_view = Ok v /\
    Main.steps v = Z.of_nat (length decisions) /\
    Main.timestamps v
    = skipn (length decisions - 366) (map (fun d : decision => fst (fst d)) decisions) /\
    Main.values v
    = skipn (length decisions - 366) (map (fun d : decision => snd (fst d)) decisions) /\
    Main.outliers v
    = skipn (length decisions - 366)
        (map (fun d : decision => if snd d then Some (snd (fst d)) else None) decisions) /\
    length (Main.timestamps v) = Nat.min (length decisions) 366 /\
    length (Main.values v) = Nat.min (length decisions) 366 /\
    length (Main.outliers v) = Nat.min (length decisions) 366.
Proof.
  destruct (main_loop_recent decisions [] Main.initial_view
              eq_refl eq_refl eq_refl eq_refl)
    as (v & Hloop & Hs & Ht & Hv & Ho).
  cbn [app] in *. exists v.
  split; [exact Hloop |]. split; [exact Hs |]. split; [exact Ht |].
  split; [exact Hv |]. split; [exact Ho |].
  rewrite Ht, Hv, Ho, !length_skipn, !length_map. lia.
Qed.

(** ** The engine on the simulated source, as [main] runs it *)

Lemma energy_float_fin (gauss : Z -> R) (t : Z) :
  exists v,
    EnergySource.energy_float gauss t = Fin v /\
    24250 + 500 * gauss t <= v.
Proof.
  unfold EnergySource.energy_float. rewrite energy_value_default.
  eexists. split; [reflexivity |].
  pose proof (SIN_bound (2 * PI * IZR t / IZR (365 * 24 * 60 * 60))) as H1.
  pose proof (SIN_bound (2 * PI * IZR t / IZR (7 * 24 * 60 * 60))) as H2.
  lra.
Qed.

Lemma energy_samples_valid (gauss : Z -> R) (l : list sample) :
  (forall t, - (485 / 10) <= gauss t) ->
  Forall (fun smp => exists t, snd smp = PyFloat (EnergySource.energy_float gauss t)) l ->
  Forall (fun smp => invalid (snd smp) = false) l /\ Forall finite_sample l.
Proof.
  intros Hg Hall. split; (eapply Forall_impl; [| exact Hall]); intros smp [t Ht].
  - rewrite Ht. destruct (energy_float_fin gauss t) as (v & Hv & Hb). rewrite Hv.
    unfold invalid. cbn [as_number ltb of_int]. apply R_ltb_false.
    specialize (Hg t). lra.
  - unfold finite_sample. rewrite Ht.
    destruct (energy_float_fin gauss t) as (v & Hv & _). rewrite Hv. exact I.
Qed.

(** X17.  The configuration [main] runs: the simulated lookup and stream,
    window 45, threshold 2.25, one-day increment, delay 0.05.  When the
    engine's clock reading is not on a day boundary and no noise draw is
    below -48.5, the stream generator does not raise, the lookup is called
    once, the bootstrap admits 44 values and every state between two cycles
    holds 44, and the only exception that can end the run is the
    [ZeroDivisionError] of a window of 45 equal values. *)
Theorem main_configuration (gauss : Z -> R)
    (generate_data_stream : Z -> R -> list sample)
    (now clock : R) (pulled : nat) :
  (forall t, - (485 / 10) <= gauss t) ->
  (forall z, now <> IZR z * IZR default_timestamp_increment) ->
  exists live,
    EnergySource.generate_energy_data_stream gauss clock pulled
      default_timestamp_increment Main.main_stream_delay = Ok live /\
    (generate_data_stream default_timestamp_increment Main.main_stream_delay
     = live ->
     let run :=
       process_z_score_outliers
         (EnergyData.historical_lookup (EnergySource.energy_float gauss))
         generate_data_stream now default_window default_threshold
         default_timestamp_increment Main.main_stream_delay in
     lookups run
     = [(now - IZR ((default_window - 1) * default_timestamp_increment), now)] /\
     (forall st, final run = Ok st -> length (window_values st) = 44%nat) /\
     (forall e, final run = Raise e -> e = ZeroDivisionError)).
Proof.
  intros Hg Hoff.
  (* the stream *)
  assert (Hd : 0 < Main.main_stream_delay)
    by (unfold Main.main_stream_delay; lra).
  unfold EnergySource.generate_energy_data_stream.
  change (default_timestamp_increment <=? 0)%Z with false.
  rewrite R_leb_false by exact Hd.
  eexists. split; [reflexivity |]. intros Hgen.
  assert (Hlive : Forall (fun smp => exists t,
                              snd smp = PyFloat (EnergySource.energy_float gauss t))
                    (generate_data_stream default_timestamp_increment
                       Main.main_stream_delay)).
  { rewrite Hgen. eapply Forall_impl; [| apply stream_items_values].
    intros smp H. cbn beta in H. exists (fst smp). exact H. }
  destruct (energy_samples_valid gauss _ Hg Hlive) as [_ Hlfin].
  (* the history *)
  destruct (lookup_ok (EnergySource.energy_float gauss)
              (now - IZR ((default_window - 1) * default_timestamp_increment))
              now default_timestamp_increment ltac:(reflexivity))
    as (hist & Hok & Hlen & Hall).
  destruct (steps_between now default_window default_timestamp_increment
              ltac:(reflexivity) ltac:(reflexivity)) as [Hsteps _].
  rewrite (Hsteps Hoff) in Hlen.
  change (Z.to_nat (default_window - 1)) with 44%nat in Hlen.
  destruct (energy_samples_valid gauss hist Hg Hall) as [Hhval Hhfin].
  pose proof (bootstrap_length hist Hhval) as Hblen.
  pose proof (bootstrap_accepted hist Hhfin) as Hhold.
  (* the run *)
  unfold process_z_score_outliers.
  change (default_window <=? 1)%Z with false. cbv iota.
  unfold EnergyData.historical_lookup.
  change EnergyData.default_timestamp_increment with default_timestamp_increment.
  rewrite Hok.
  destruct (stream_loop default_window default_threshold
              (generate_data_stream default_timestamp_increment
                 Main.main_stream_delay) (bootstrap hist))
    as [outs fin] eqn:Hrun.
  cbn [lookups final]. split; [reflexivity |]. split.
  - intros st Hfin. subst fin.
    rewrite (stream_loop_length _ _ _ _ _ _ Hrun). lia.
  - intros e Hfin. subst fin.
    apply (stream_loop_never_domain_error default_window default_threshold
             (generate_data_stream default_timestamp_increment
                Main.main_stream_delay)
             (bootstrap hist) (accepted_reals hist) ltac:(reflexivity) Hhold).
    + rewrite <- (holds_length _ _ Hhold), Hblen, Hlen. reflexivity.
    + exact Hlfin.
    + now rewrite Hrun.
Qed.

Lemma main_configuration_witness :
  exists live,
    EnergySource.generate_energy_data_stream (fun _ => 0) 1730000001 2
      default_timestamp_increment Main.main_stream_delay = Ok live /\
    lookups
      (process_z_score_outliers
         (EnergyData.historical_lookup (EnergySource.energy_float (fun _ => 0)))
         (fun _ _ => live) 1730000000 default_window default_threshold
         default_timestamp_increment Main.main_stream_delay)
    = [(1730000000 - IZR ((default_window - 1) * default_timestamp_increment),
        1730000000)].
Proof.
  destruct (main_configuration (fun _ => 0)
              (fun _ _ =>
                 EnergySource.stream_items (fun _ => 0)
                   (ceil (1730000001 / IZR default_timestamp_increment)
                    * default_timestamp_increment)
                   default_timestamp_increment 2)
              1730000000 1730000001 2)
    as (live & Hlive & Hrun).
  - intros t. lra.
  - intros z Hz. rewrite <- mult_IZR in Hz. apply eq_IZR in Hz.
    unfold default_timestamp_increment in Hz. lia.
  - exists live. split; [exact Hlive |].
    assert (Heq : EnergySource.stream_items (fun _ => 0)
                    (ceil (1730000001 / IZR default_timestamp_increment)
                     * default_timestamp_increment)
                    default_timestamp_increment 2 = live).
    { unfold EnergySource.generate_energy_data_stream in Hlive.
      change (default_timestamp_increment <=? 0)%Z with false in Hlive.
      rewrite R_leb_false in Hlive by (unfold Main.main_stream_delay; lra).
      now inversion Hlive. }
    rewrite <- Heq. exact (proj1 (Hrun Heq)).
Defined.
